(** * SQLTools: command dispatch pipeline and query-results panel

    A shallow embedding of

    - [packages/extension/index.ts]: the [SQLToolsExtension] class (hook
      tables, plugin queue, decorated commands), in [Module Extension];
    - [packages/plugins/connection-manager/ui/screens/Results/Main.tsx]:
      the reducer and the handlers of the results screen, in
      [Module Results].

    JavaScript objects used as dictionaries are finite maps ([gmap]); keys
    that collide with members inherited from [Object.prototype] are outside
    the model.  Effects (logging, event emission, callbacks, thrown
    exceptions, outbound messages) are threaded through a small
    state-and-exception monad whose state carries a chronological trace. *)

From Stdlib Require Import ZArith.
From stdpp Require Import gmap strings list fin_maps.

(** ** A JavaScript-flavoured state and exception monad *)

Module Js.

(** What a JavaScript [throw] carries.  [TypeError] is what the engine
    raises on a property read of [null]/[undefined]; [Raised] is anything
    user code throws or rejects with. *)
Inductive Thrown :=
| TypeError (msg : string)
| Raised (reason : string).

Inductive Completion (A : Type) :=
| Normal (a : A)
| Throw (e : Thrown).
Arguments Normal {A} a.
Arguments Throw {A} e.

(** A computation over a world [W]; the world survives a throw. *)
Definition M (W A : Type) : Type := W → Completion A * W.

Definition ret {W A} (a : A) : M W A := λ w, (Normal a, w).

Definition bind {W A B} (m : M W A) (k : A → M W B) : M W B :=
  λ w, match m w with
       | (Normal a, w') => k a w'
       | (Throw e, w') => (Throw e, w')
       end.

Definition throw {W A} (e : Thrown) : M W A := λ w, (Throw e, w).

(** [try { body } catch (e) { handler(e) }] *)
Definition try_catch {W A} (body : M W A) (handler : Thrown → M W A) : M W A :=
  λ w, match body w with
       | (Normal a, w') => (Normal a, w')
       | (Throw e, w') => handler e w'
       end.

Definition get {W} : M W W := λ w, (Normal w, w).
Definition modify {W} (f : W → W) : M W unit := λ w, (Normal tt, f w).

(** [Array.prototype.forEach]: the callback runs on each element in index
    order; a throw leaves the loop at once. *)
Fixpoint forEach {W A} (l : list A) (f : A → M W unit) : M W unit :=
  match l with
  | [] => ret tt
  | x :: l' => bind (f x) (λ _, forEach l' f)
  end.

(** JavaScript truthiness of a string: only the empty string is falsy. *)
Definition truthy (s : string) : bool :=
  match s with EmptyString => false | String _ _ => true end.

(** [s || d] on an optional string. *)
Definition or_else (s : option string) (d : string) : string :=
  match s with
  | Some x => if truthy x then x else d
  | None => d
  end.

(** The members a plain object ([{}]) inherits from [Object.prototype],
    each with what its [length] reads: the declared arity of a function, and
    nothing for [__proto__], which reads the prototype object itself. *)
Definition object_prototype_members : list (string * option nat) :=
  [("constructor", Some 1); ("__defineGetter__", Some 2); ("__defineSetter__", Some 2);
   ("hasOwnProperty", Some 1); ("__lookupGetter__", Some 1); ("__lookupSetter__", Some 1);
   ("isPrototypeOf", Some 1); ("propertyIsEnumerable", Some 1); ("toString", Some 0);
   ("valueOf", Some 0); ("__proto__", None); ("toLocaleString", Some 0)].

Definition object_prototype (key : string) : option (option nat) :=
  snd <$> List.find (λ m, String.eqb m.1 key) object_prototype_members.

(** What [o[key]] reads on a plain object whose own properties are arrays:
    the own array, else the inherited member (truthy, and not an array),
    else [undefined]. *)
Inductive Slot (A : Type) :=
| Own (xs : list A)
| Inherited (length : option nat)
| Missing.
Arguments Own {A} xs.
Arguments Inherited {A} length.
Arguments Missing {A}.

Definition js_get {A} (o : gmap string (list A)) (key : string) : Slot A :=
  match o !! key with
  | Some xs => Own xs
  | None =>
      match object_prototype key with
      | Some len => Inherited len
      | None => Missing
      end
  end.

End Js.

Notation "'do' x <- m ; k" := (Js.bind m (λ x, k))
  (at level 10, x name, m at level 100, k at level 200,
   format "'[v' 'do'  x  <-  m ; '/' k ']'").
Notation "m >> k" := (Js.bind m (λ _, k))
  (at level 100, k at level 200, right associativity).

(** ** [packages/extension/index.ts] *)

Module Extension.
Import Js.

(** *** Values a command handler can return

    The dispatcher only inspects a handler's result through
    [typeof result], [typeof result.then] and [typeof result.catch], and
    through [await].  A value is therefore classified by these
    observations; [VThenable] carries how the pending computation settles
    (thenables that never settle are not represented). *)
Inductive Value :=
| VUndefined
| VNull
| VData (d : string)          (* neither [.then] nor [.catch] is a function *)
| VThenable (s : Settlement)  (* [typeof .then === 'function'] *)
| VCatchOnly (d : string)     (* only [.catch] is a function *)
with Settlement :=
| Fulfils (v : Value)
| Rejects (e : Thrown).

(** [await v]: a thenable is unwrapped until a non-thenable value or a
    rejection is reached; anything else is its own settled value. *)
Fixpoint settle (v : Value) : Completion Value :=
  match v with
  | VThenable s =>
      match s with
      | Fulfils v' => settle v'
      | Rejects e => Throw e
      end
  | _ => Normal v
  end.

Record ICommandEvent := {
  command : string;
  args : list Value;
}.

Record ICommandSuccessEvent := {
  s_args : list Value;
  s_command : string;
  result : Value;
}.

(** A registered callback: an identity, to tell invocations apart in the
    trace, and whether the call returns ([None]) or throws.  What a hook
    does besides is opaque to the dispatcher; hooks are taken not to change
    the event object or the argument array they are handed. *)
Record Hook (E : Type) := {
  hook_id : nat;
  hook_run : E → option Thrown;
}.
Arguments hook_id {E} _.
Arguments hook_run {E} _ _.

(** A command handler, [handler(...args)]. *)
Definition Handler : Type := list Value → Completion Value.

Inductive CommandType := registerCommand_t | registerTextEditorCommand_t.

(** One entry pushed to [Context.subscriptions] by
    [decorateAndRegisterCommand]. *)
Record Registration := {
  reg_type : CommandType;
  reg_id : string;          (* [`${EXT_NAMESPACE}.${command}`] *)
  reg_command : string;
  reg_handler : Handler;
}.

(** Everything observable that the class does, in the order it happens. *)
Inductive Obs :=
| LogInfo (msg : string) (with_args : option (list Value))
| LogDebug (n : option nat) (phase : string)
| FireWillRun (evt : ICommandEvent)
| FireDidRun (evt : ICommandSuccessEvent)
| CallBeforeHook (id : nat) (evt : ICommandEvent)
| CallAfterHook (id : nat) (evt : ICommandSuccessEvent)
| CallHandler (a : list Value)
| Suspend                                   (* the [await]: end of the turn *)
| UnexpectedError (e : Thrown)              (* a listener failure the emitter absorbed *)
| CallRegister (plugin_name : string)
| ReportError (message : string) (e : Thrown)
| UpdateExtPluginsInfo.

(** The part of the extension a plugin reaches through the handle it is
    given ([addBeforeCommandHook], [addAfterCommandSuccessHook],
    [registerCommand], [registerTextEditorCommand]). *)
Record Registry := {
  willRunCommandHooks : gmap string (list (Hook ICommandEvent));
  didRunCommandSuccessfullyHooks : gmap string (list (Hook ICommandSuccessEvent));
  subscriptions : list Registration;
}.

(** [register(this)] transforms the registry and returns, or throws with
    whatever it changed so far left in place.  A plugin that re-enters
    [registerPlugin] from inside [register] is not represented. *)
Record IExtensionPlugin := {
  name : string;
  extensionId : option string;
  type : option string;
  register : Registry → Registry * option Thrown;
}.

Record SQLToolsExtension := {
  pluginsQueue : list IExtensionPlugin;
  extPlugins : gmap string (list string);
  registry : Registry;
  loaded : bool;
}.

Record World := {
  this : SQLToolsExtension;
  trace : list Obs;
}.

Definition emit (o : Obs) : M World unit :=
  modify (λ w, {| this := this w; trace := trace w ++ [o] |}).

Definition update (f : SQLToolsExtension → SQLToolsExtension) : M World unit :=
  modify (λ w, {| this := f (this w); trace := trace w |}).

Definition set_registry (r : Registry) (x : SQLToolsExtension) : SQLToolsExtension :=
  {| pluginsQueue := pluginsQueue x; extPlugins := extPlugins x;
     registry := r; loaded := loaded x |}.

Definition set_pluginsQueue (q : list IExtensionPlugin) (x : SQLToolsExtension) :=
  {| pluginsQueue := q; extPlugins := extPlugins x;
     registry := registry x; loaded := loaded x |}.

Definition set_extPlugins (m : gmap string (list string)) (x : SQLToolsExtension) :=
  {| pluginsQueue := pluginsQueue x; extPlugins := m;
     registry := registry x; loaded := loaded x |}.

Definition set_loaded (b : bool) (x : SQLToolsExtension) :=
  {| pluginsQueue := pluginsQueue x; extPlugins := extPlugins x;
     registry := registry x; loaded := b |}.

Section WithEnv.

(** [EXT_NAMESPACE] comes from [@sqltools/util/constants]; [NODE_ENV] is
    [process.env.NODE_ENV]. *)
Variable EXT_NAMESPACE : string.
Variable NODE_ENV : string.

(** *** Collaborators *)

(** Modelled from the spec: [ErrorHandler.create(message)(error)] of
    [./api/error-handler] is the error-reporting collaborator
    [report(message, error)]; it records the report and returns. *)
Definition errorHandler (message : string) (error : Thrown) : M World unit :=
  emit (ReportError message error).

(** Modelled from the spec: [updateExtPluginsInfo] is a debounced,
    fire-and-forget write of [extPlugins]; the call only schedules it. *)
Definition updateExtPluginsInfo : M World unit :=
  emit UpdateExtPluginsInfo.

(** [EventEmitter.fire] of the [vscode] API: the subscribed listener is
    called with the event, and a failing listener does not fail the call.
    Each emitter has the single listener subscribed in [activate]. *)
Definition fire {E} (listener : E → M World unit) (data : E) : M World unit :=
  try_catch (listener data) (λ e, emit (UnexpectedError e)).

(** *** Plugins *)

(** The bookkeeping inside [if (plugin.extensionId) { ... }]: the map it
    leaves and the error it raises, if any.  Under a tag that names an
    inherited member, [extPlugins[tag] || []] is that member, which has no
    [includes]: the call raises and no id is filed (the assignment before it
    only makes the member an own property, which reads the same). *)
Definition record_extension (plugin : IExtensionPlugin)
    (m : gmap string (list string)) : gmap string (list string) * option Thrown :=
  match extensionId plugin with
  | None => (m, None)
  | Some id =>
      if truthy id then
        let key := or_else (type plugin) "general" in
        match js_get m key with
        | Inherited _ => (m, Some (TypeError "includes is not a function"))
        | _ =>
            let ids := default [] (m !! key) in
            (<[key := if bool_decide (id ∈ ids) then ids else ids ++ [id]]> m, None)
        end
      else (m, None)
  end.

(** One iteration of the [for (let plugin of pluginsQueue)] loop. *)
Definition load_plugin (plugin : IExtensionPlugin) : M World unit :=
  try_catch
    (emit (CallRegister (name plugin)) >>
     do w <- get;
     let '(r, thrown) := register plugin (registry (this w)) in
     update (set_registry r) >>
     match thrown with
     | Some error => throw error
     | None =>
         do w' <- get;
         update (set_extPlugins (record_extension plugin (extPlugins (this w'))).1) >>
         match (record_extension plugin (extPlugins (this w'))).2 with
         | Some error => throw error
         | None => ret tt
         end
     end)
    (λ error, errorHandler ("Error loading plugin " +:+ name plugin) error).

Definition loadPlugins : M World unit :=
  do w <- get;
  let queue := pluginsQueue (this w) in
  update (set_pluginsQueue []) >>
  update (λ x, set_loaded (loaded x || true) x) >>
  forEach queue load_plugin >>
  updateExtPluginsInfo.

Definition registerPlugin (plugins : list IExtensionPlugin) : M World unit :=
  update (λ x, set_pluginsQueue (pluginsQueue x ++ plugins) x) >>
  do w <- get;
  if loaded (this w) then loadPlugins else ret tt.

(** *** Hooks *)

(** [this[prop][command]] is created on first use, then pushed to: the
    table the call leaves and the error it raises, if any.  For a command
    that names an inherited member, [this[prop][command]] is that member:
    no list is created, and [push] is not a function. *)
Definition addHook {E} (table : gmap string (list (Hook E)))
    (command : string) (handler : Hook E) : gmap string (list (Hook E)) * option Thrown :=
  match js_get table command with
  | Inherited _ => (table, Some (TypeError "push is not a function"))
  | _ => (<[command := default [] (table !! command) ++ [handler]]> table, None)
  end.

Definition addBeforeCommandHook (command : string)
    (handler : Hook ICommandEvent) (r : Registry) : Registry * option Thrown :=
  ({| willRunCommandHooks := (addHook (willRunCommandHooks r) command handler).1;
      didRunCommandSuccessfullyHooks := didRunCommandSuccessfullyHooks r;
      subscriptions := subscriptions r |},
   (addHook (willRunCommandHooks r) command handler).2).

Definition addAfterCommandSuccessHook (command : string)
    (handler : Hook ICommandSuccessEvent) (r : Registry) : Registry * option Thrown :=
  ({| willRunCommandHooks := willRunCommandHooks r;
      didRunCommandSuccessfullyHooks :=
        (addHook (didRunCommandSuccessfullyHooks r) command handler).1;
      subscriptions := subscriptions r |},
   (addHook (didRunCommandSuccessfullyHooks r) command handler).2).

(** [hook(evt)] *)
Definition call_hook {E} (obs : nat → E → Obs) (evt : E) (hook : Hook E) : M World unit :=
  emit (obs (hook_id hook) evt) >>
  match hook_run hook evt with
  | Some e => throw e
  | None => ret tt
  end.

(** The body shared by the two listeners, on what [hooks[evt.command]]
    read: [if (!hooks || hooks.length === 0) return;], the debug line, and
    [hooks.forEach(hook => hook(evt))], which an inherited member has not. *)
Definition run_hooks {E} (obs : nat → E → Obs) (phase : string) (evt : E)
    (slot : Slot (Hook E)) : M World unit :=
  match slot with
  | Missing => ret tt
  | Own hooks =>
      if (length hooks =? 0)%nat then ret tt else
      emit (LogDebug (Some (length hooks)) phase) >>
      forEach hooks (call_hook obs evt)
  | Inherited len =>
      if bool_decide (len = Some 0) then ret tt else
      emit (LogDebug len phase) >>
      throw (TypeError "forEach is not a function")
  end.

Definition onWillRunCommandHandler (evt : ICommandEvent) : M World unit :=
  if negb (truthy (command evt)) then ret tt else
  do w <- get;
  run_hooks CallBeforeHook "beforeCommandHooks" evt
    (js_get (willRunCommandHooks (registry (this w))) (command evt)).

Definition onDidRunCommandSuccessfullyHandler (evt : ICommandSuccessEvent) : M World unit :=
  if negb (truthy (s_command evt)) then ret tt else
  do w <- get;
  run_hooks CallAfterHook "afterCommandSuccessfullyHooks" evt
    (js_get (didRunCommandSuccessfullyHooks (registry (this w))) (s_command evt)).

(** *** Decorated commands *)

(** [handler(...args)] *)
Definition call_handler (handler : Handler) (a : list Value) : M World Value :=
  emit (CallHandler a) >>
  match handler a with
  | Normal v => ret v
  | Throw e => throw e
  end.

(** [typeof result !== 'undefined' &&
     (typeof result.then === 'function' || typeof result.catch === 'function')];
    reading a property of [null] raises. *)
Definition looks_pending (result : Value) : M World bool :=
  match result with
  | VUndefined => ret false
  | VNull => throw (TypeError "Cannot read property 'then' of null")
  | VData _ => ret false
  | VThenable _ => ret true
  | VCatchOnly _ => ret true
  end.

(** [await result]: the turn ends, and the function resumes with the settled
    value or throws the rejection. *)
Definition await (v : Value) : M World Value :=
  emit Suspend >>
  match settle v with
  | Normal r => ret r
  | Throw e => throw e
  end.

(** The [async (...args) => { ... }] that [decorateAndRegisterCommand] hands
    to [commands[type]].  [Normal r] is the returned promise fulfilling with
    [r], [Throw e] is it rejecting with [e]. *)
Definition command_callback (command : string) (handler : Handler)
    (a : list Value) : M World Value :=
  (if bool_decide (NODE_ENV = "development")
   then emit (LogInfo ("EXECUTING => " +:+ EXT_NAMESPACE +:+ "." +:+ command) (Some a))
   else emit (LogInfo ("EXECUTING => " +:+ EXT_NAMESPACE +:+ "." +:+ command) None)) >>
  let evt := {| command := command; args := a |} in
  emit (FireWillRun evt) >>
  fire onWillRunCommandHandler evt >>
  do result <- call_handler handler a;
  do pending <- looks_pending result;
  do result <- (if pending then await result else ret result);
  let evt' := {| s_args := a; s_command := command; result := result |} in
  emit (FireDidRun evt') >>
  fire onDidRunCommandSuccessfullyHandler evt' >>
  ret result.

Definition decorateAndRegisterCommand (command : string) (handler : Handler)
    (type : CommandType) (r : Registry) : Registry :=
  {| willRunCommandHooks := willRunCommandHooks r;
     didRunCommandSuccessfullyHooks := didRunCommandSuccessfullyHooks r;
     subscriptions := subscriptions r ++
       [{| reg_type := type; reg_id := EXT_NAMESPACE +:+ "." +:+ command;
           reg_command := command; reg_handler := handler |}] |}.

Definition registerCommand (command : string) (handler : Handler) : Registry → Registry :=
  decorateAndRegisterCommand command handler registerCommand_t.

Definition registerTextEditorCommand (command : string) (handler : Handler) : Registry → Registry :=
  decorateAndRegisterCommand command handler registerTextEditorCommand_t.

(** The editor invoking a registered command with [a]. *)
Definition invoke (reg : Registration) (a : list Value) : M World Value :=
  command_callback (reg_command reg) (reg_handler reg) a.

(** One dispatch observed from outside: how the returned promise settles,
    and what happened on the way. *)
Definition dispatch (x : SQLToolsExtension) (command : string) (handler : Handler)
    (a : list Value) : Completion Value * list Obs :=
  let '(c, w) := command_callback command handler a {| this := x; trace := [] |} in
  (c, trace w).

End WithEnv.

(** *** Reading a trace *)

(** The hooks registered for [command], in registration order. *)
Definition hooks_of {E} (table : gmap string (list (Hook E))) (command : string) : list (Hook E) :=
  default [] (table !! command).

(** The calls made to hooks and to the handler. *)
Definition is_call (o : Obs) : bool :=
  match o with
  | CallBeforeHook _ _ | CallAfterHook _ _ | CallHandler _ => true
  | _ => false
  end.

Definition calls (tr : list Obs) : list Obs := List.filter is_call tr.

(** The plugins whose [register] was called, and the errors reported. *)
Definition registered (tr : list Obs) : list string :=
  omap (λ o, match o with CallRegister n => Some n | _ => None end) tr.

Definition reported (tr : list Obs) : list (string * Thrown) :=
  omap (λ o, match o with ReportError m e => Some (m, e) | _ => None end) tr.

(** What [forEach] over hooks appends to the trace, and the throw that ended
    it, if any. *)
Fixpoint hook_calls {E} (obs : nat → E → Obs) (evt : E) (hooks : list (Hook E))
    : list Obs * option Thrown :=
  match hooks with
  | [] => ([], None)
  | h :: hooks' =>
      match hook_run h evt with
      | Some e => ([obs (hook_id h) evt], Some e)
      | None => let '(t, r) := hook_calls obs evt hooks' in (obs (hook_id h) evt :: t, r)
      end
  end.

(** What firing an emitter appends to the trace, given the hooks found for
    the event's command. *)
Definition listener_trace {E} (obs : nat → E → Obs) (phase : string)
    (command : string) (slot : Slot (Hook E)) (evt : E) : list Obs :=
  if truthy command then
    match slot with
    | Missing => []
    | Own [] => []
    | Own hooks =>
        LogDebug (Some (length hooks)) phase ::
        (hook_calls obs evt hooks).1 ++
        match (hook_calls obs evt hooks).2 with
        | Some e => [UnexpectedError e]
        | None => []
        end
    | Inherited len =>
        if bool_decide (len = Some 0) then []
        else [LogDebug len phase; UnexpectedError (TypeError "forEach is not a function")]
    end
  else [].

(** *** The claims about one dispatch, as the specification words them *)

Definition will_run_event (command : string) (a : list Value) : ICommandEvent :=
  {| command := command; args := a |}.

Definition did_run_event (command : string) (a : list Value) (r : Value) : ICommandSuccessEvent :=
  {| s_args := a; s_command := command; result := r |}.

(** What a dispatch of [command] with [a] writes around the handler call. *)
Definition log_line (ns env command : string) (a : list Value) : Obs :=
  LogInfo ("EXECUTING => " +:+ ns +:+ "." +:+ command)
          (if bool_decide (env = "development") then Some a else None).

Definition before_trace (x : SQLToolsExtension) (command : string) (a : list Value) : list Obs :=
  listener_trace CallBeforeHook "beforeCommandHooks" command
    (js_get (willRunCommandHooks (registry x)) command) (will_run_event command a).

Definition after_trace (x : SQLToolsExtension) (command : string) (a : list Value)
    (r : Value) : list Obs :=
  listener_trace CallAfterHook "afterCommandSuccessfullyHooks" command
    (js_get (didRunCommandSuccessfullyHooks (registry x)) command) (did_run_event command a r).

(** The handler succeeds with [r]: it returns, and what it returns settles
    to [r]. *)
Definition succeeds_with (handler : Handler) (a : list Value) (r : Value) : Prop :=
  ∃ v, handler a = Normal v ∧ settle v = Normal r.

(** The handler fails with [e]: it throws [e], or returns a pending
    computation that rejects with [e]. *)
Definition fails_with (handler : Handler) (a : list Value) (e : Thrown) : Prop :=
  handler a = Throw e ∨
  ∃ s, handler a = Normal (VThenable s) ∧ settle (VThenable s) = Throw e.

(** Every before-hook once, in registration order, then the handler, then,
    if the handler succeeded, every after-hook once, in registration order,
    with the settled result. *)
Definition expected_calls (x : SQLToolsExtension) (command : string)
    (handler : Handler) (a : list Value) : list Obs :=
  map (λ h, CallBeforeHook (hook_id h) (will_run_event command a))
      (hooks_of (willRunCommandHooks (registry x)) command) ++
  CallHandler a ::
  match handler a with
  | Normal v =>
      match settle v with
      | Normal r =>
          map (λ h, CallAfterHook (hook_id h) (did_run_event command a r))
              (hooks_of (didRunCommandSuccessfullyHooks (registry x)) command)
      | Throw _ => []
      end
  | Throw _ => []
  end.

Definition hooks_run_in_order (ns env : string) (x : SQLToolsExtension)
    (command : string) (handler : Handler) (a : list Value) : Prop :=
  calls (dispatch ns env x command handler a).2 = expected_calls x command handler a.

(** The "ran successfully" event and the calls it leads to. *)
Definition is_success_obs (o : Obs) : bool :=
  match o with
  | FireDidRun _ | CallAfterHook _ _ => true
  | _ => false
  end.

(** *** Sample extensions *)

Definition empty_registry : Registry :=
  {| willRunCommandHooks := ∅; didRunCommandSuccessfullyHooks := ∅; subscriptions := [] |}.

Definition quiet {E} (id : nat) : Hook E := {| hook_id := id; hook_run := λ _, None |}.

Definition failing {E} (id : nat) : Hook E :=
  {| hook_id := id; hook_run := λ _, Some (Raised "hook failed") |}.

Definition with_registry (r : Registry) : SQLToolsExtension :=
  {| pluginsQueue := []; extPlugins := ∅; registry := r; loaded := true |}.

(** The registry a call on the handle leaves, whether it returned or
    raised. *)
Definition applied (f : Registry → Registry * option Thrown) (r : Registry) : Registry :=
  (f r).1.

(** Two before-hooks and two after-hooks on [runQuery]. *)
Definition sample_extension : SQLToolsExtension :=
  with_registry
    (applied (addAfterCommandSuccessHook "runQuery" (quiet 4))
      (applied (addAfterCommandSuccessHook "runQuery" (quiet 3))
        (applied (addBeforeCommandHook "runQuery" (quiet 2))
          (applied (addBeforeCommandHook "runQuery" (quiet 1)) empty_registry)))).

(** A before-hook registered for the command whose name is empty. *)
Definition unnamed_extension : SQLToolsExtension :=
  with_registry (applied (addBeforeCommandHook "" (quiet 1)) empty_registry).

(** The first of two before-hooks on [runQuery] throws. *)
Definition failing_extension : SQLToolsExtension :=
  with_registry
    (applied (addBeforeCommandHook "runQuery" (quiet 2))
      (applied (addBeforeCommandHook "runQuery" (failing 1)) empty_registry)).

(** *** One dispatch, as the code runs it *)

(** The hooks a [forEach] over [hooks] calls with [evt]: all of them, in
    order, up to and including the first one that throws. *)
Fixpoint until_throw {E} (evt : E) (hooks : list (Hook E)) : list (Hook E) :=
  match hooks with
  | [] => []
  | h :: hooks' =>
      h :: match hook_run h evt with
           | Some _ => []
           | None => until_throw evt hooks'
           end
  end.

(** The hooks a listener calls for [command]: none when the name is
    empty. *)
Definition hooks_called {E} (table : gmap string (list (Hook E))) (command : string)
    (evt : E) : list (Hook E) :=
  if truthy command then until_throw evt (hooks_of table command) else [].

(** The calls of one dispatch: the before-hooks called, the handler, and,
    when the handler's result is available and is not a rejection, the
    after-hooks called with it. *)
Definition dispatch_calls (x : SQLToolsExtension) (command : string)
    (handler : Handler) (a : list Value) : list Obs :=
  map (λ h, CallBeforeHook (hook_id h) (will_run_event command a))
      (hooks_called (willRunCommandHooks (registry x)) command (will_run_event command a)) ++
  CallHandler a ::
  match handler a with
  | Normal v =>
      match settle v with
      | Normal r =>
          map (λ h, CallAfterHook (hook_id h) (did_run_event command a r))
              (hooks_called (didRunCommandSuccessfullyHooks (registry x)) command
                 (did_run_event command a r))
      | Throw _ => []
      end
  | Throw _ => []
  end.

(** *** The claims about a load pass *)

(** The tag a plugin's id is filed under, and the id it declares. *)
Definition tag (p : IExtensionPlugin) : string := or_else (type p) "general".

Definition declared_id (p : IExtensionPlugin) : option string :=
  match extensionId p with
  | Some id => if truthy id then Some id else None
  | None => None
  end.

(** The ids filed under [key]. *)
Definition recorded (m : gmap string (list string)) (key : string) : list string :=
  default [] (m !! key).

(** The registry after the [register] calls of a pass over [queue]. *)
Definition registry_after (queue : list IExtensionPlugin) (r : Registry) : Registry :=
  foldl (λ r p, (register p r).1) r queue.

(** The bookkeeping of a pass in which every plugin of [queue] loads. *)
Definition record_all (queue : list IExtensionPlugin)
    (m : gmap string (list string)) : gmap string (list string) :=
  foldl (λ m p, (record_extension p m).1) m queue.

(** How each [register] call of a pass over [queue] ends, the pass starting
    from the registry [r]: [None] when it returns. *)
Fixpoint call_outcomes (queue : list IExtensionPlugin) (r : Registry) : list (option Thrown) :=
  match queue with
  | [] => []
  | p :: queue' => (register p r).2 :: call_outcomes queue' (register p r).1
  end.

(** The plugin's tag does not name a member inherited from
    [Object.prototype]. *)
Definition plain_tag (p : IExtensionPlugin) : Prop := object_prototype (tag p) = None.

(** The last clause of the claim as worded: after the pass, the id that
    [bad] declares is not filed under its tag. *)
Definition failed_id_not_recorded (w : World) (bad : IExtensionPlugin) : Prop :=
  ∀ id, declared_id bad = Some id →
        id ∉ recorded (extPlugins (this (loadPlugins w).2)) (tag bad).

(** Sample plugins: two that load and one whose [register] throws. *)
Definition formatter : IExtensionPlugin :=
  {| name := "formatter"; extensionId := Some "acme.formatter"; type := None;
     register := λ r, (registerCommand "sqltools" "format" (λ _, Normal VUndefined) r, None) |}.

Definition driver : IExtensionPlugin :=
  {| name := "driver"; extensionId := Some "acme.driver"; type := Some "driver";
     register := addBeforeCommandHook "runQuery" (quiet 7) |}.

Definition broken : IExtensionPlugin :=
  {| name := "broken"; extensionId := Some "acme.broken"; type := Some "driver";
     register := λ r, (r, Some (Raised "cannot start")) |}.

Definition sample_queue : SQLToolsExtension :=
  {| pluginsQueue := [formatter; broken; driver]; extPlugins := ∅;
     registry := empty_registry; loaded := false |}.

(** *** A load pass, whatever the plugins do *)

(** The plugins of [queue] whose [register] returns, when the pass starts
    from the registry [r]. *)
Fixpoint loaded_in_pass (queue : list IExtensionPlugin) (r : Registry) : list IExtensionPlugin :=
  match queue with
  | [] => []
  | p :: queue' =>
      match (register p r).2 with
      | None => p :: loaded_in_pass queue' (register p r).1
      | Some _ => loaded_in_pass queue' (register p r).1
      end
  end.

(** How the iteration for [p] ends, from the registry [r] and the
    bookkeeping [m]: with the error of [register], else with the error of
    the bookkeeping, else normally. *)
Definition load_error (p : IExtensionPlugin) (r : Registry)
    (m : gmap string (list string)) : option Thrown :=
  match (register p r).2 with
  | Some e => Some e
  | None => (record_extension p m).2
  end.

(** The bookkeeping after the iteration for [p]. *)
Definition load_record (p : IExtensionPlugin) (r : Registry)
    (m : gmap string (list string)) : gmap string (list string) :=
  match (register p r).2 with
  | Some _ => m
  | None => (record_extension p m).1
  end.

(** What the loop over [queue] appends to the trace. *)
Fixpoint pass_trace (queue : list IExtensionPlugin) (r : Registry)
    (m : gmap string (list string)) : list Obs :=
  match queue with
  | [] => []
  | p :: queue' =>
      CallRegister (name p) ::
      match load_error p r m with
      | None => []
      | Some e => [ReportError ("Error loading plugin " +:+ name p) e]
      end ++ pass_trace queue' (register p r).1 (load_record p r m)
  end.

(** The calls made to the handler. *)
Definition is_handler_call (o : Obs) : bool :=
  match o with
  | CallHandler _ => true
  | _ => false
  end.

(** The extension [x] after the call [f] on its handle, whether the call
    returned or raised. *)
Definition on_registry (f : Registry → Registry * option Thrown)
    (x : SQLToolsExtension) : SQLToolsExtension :=
  set_registry (f (registry x)).1 x.

(** A plugin whose [register] throws and that declares the id of [driver]
    under the tag of [driver], and a plugin filed under a tag that names an
    inherited member. *)
Definition broken_driver : IExtensionPlugin :=
  {| name := "broken driver"; extensionId := Some "acme.driver"; type := Some "driver";
     register := λ r, (r, Some (Raised "cannot start")) |}.

Definition oddly_tagged : IExtensionPlugin :=
  {| name := "odd"; extensionId := Some "acme.odd"; type := Some "constructor";
     register := λ r, (r, None) |}.

(** A plugin that declares the same id as [driver], under the same tag. *)
Definition driver_again : IExtensionPlugin :=
  {| name := "driver (again)"; extensionId := Some "acme.driver"; type := Some "driver";
     register := λ r, (r, None) |}.

(** An extension that has not run a pass yet, with [queue] waiting, and one
    that has. *)
Definition waiting (queue : list IExtensionPlugin) : World :=
  {| this := {| pluginsQueue := queue; extPlugins := ∅; registry := empty_registry;
                loaded := false |};
     trace := [] |}.

Definition running : World :=
  {| this := {| pluginsQueue := []; extPlugins := ∅; registry := empty_registry;
                loaded := true |};
     trace := [] |}.

End Extension.

(** ** [connection-manager/ui/screens/Results/Main.tsx] *)

Module Results.
Import Js.

(** Untyped data crossing the channel ([any] in the source). *)
#[local] Unset Elimination Schemes.
Inductive Json :=
| JUndefined
| JNull
| JBool (b : bool)
| JNum (n : Z)
| JStr (s : string)
| JArr (items : list Json)
| JObj (fields : list (string * Json)).
#[local] Set Elimination Schemes.

(** JavaScript truthiness ([NaN] is not represented). *)
Definition js_truthy (j : Json) : bool :=
  match j with
  | JUndefined | JNull => false
  | JBool b => b
  | JNum n => negb (n =? 0)%Z
  | JStr s => truthy s
  | JArr _ | JObj _ => true
  end.

(** [a || b] *)
Definition js_or (a b : Json) : Json := if js_truthy a then a else b.

(** [a ?? b] *)
Definition nullish_or (a b : Json) : Json :=
  match a with
  | JUndefined | JNull => b
  | _ => a
  end.

(** [`${s}`] on an optional string. *)
Definition template (s : option string) : string := default "undefined" s.

(** [xs[i]]: [undefined] outside the array. *)
Definition index {A} (xs : list A) (i : Z) : option A :=
  if (i <? 0)%Z then None else xs !! Z.to_nat i.

(** The fields of [NSDatabase.IResult] that this screen's logic reads. *)
Module NSDatabase.
Record IResult := {
  requestId : Json;
  resultId : Json;
  baseQuery : Json;
  connId : Json;
  queryType : option string;
  query : Json;
  queryParams : Json;
  pageSize : Json;
  page : Json;
  error : Json;
  messages : list Json;
}.
End NSDatabase.
Import NSDatabase.

(** [error] holds a result or is empty ([null] and [undefined] are not told
    apart). *)
Record QueryResultsState := {
  loading : bool;
  error : option IResult;
  resultTabs : list IResult;
  activeTab : Z;
}.

(** [Partial<QueryResultsState>]: the keys a payload carries. *)
Record Changes := {
  c_loading : option bool;
  c_error : option (option IResult);
  c_resultTabs : option (list IResult);
  c_activeTab : option Z;
}.

Definition initialState : QueryResultsState :=
  {| loading := true; error := None; resultTabs := []; activeTab := 0 |}.

(** [{ type: ACTION, payload?: any }], each type with the payload this file
    dispatches it with; [OTHER] is a type outside the enum. *)
Inductive Action :=
| RESET
| RESULTS_RECEIVED (payload : option Changes)
| TOGGLE_TAB (payload : Z)
| SET (payload : option Changes)
| OTHER (type : string).

(** [{ ...state, ...payload }] *)
Definition merge (state : QueryResultsState) (payload : option Changes) : QueryResultsState :=
  match payload with
  | None => state
  | Some c =>
      {| loading := default (loading state) (c_loading c);
         error := default (error state) (c_error c);
         resultTabs := default (resultTabs state) (c_resultTabs c);
         activeTab := default (activeTab state) (c_activeTab c) |}
  end.

Definition reducer (state : QueryResultsState) (action : Action) : Completion QueryResultsState :=
  match action with
  | RESET => Normal initialState
  | RESULTS_RECEIVED payload => Normal (merge state payload)
  | TOGGLE_TAB payload =>
      Normal {| loading := loading state; error := error state;
                resultTabs := resultTabs state; activeTab := payload |}
  | SET payload => Normal (merge state payload)
  | OTHER _ => Throw (Raised "Error")
  end.

Definition getCurrentQueryOptions (activeResult : IResult) : list (string * Json) :=
  [("requestId", requestId activeResult);
   ("resultId", resultId activeResult);
   ("baseQuery", baseQuery activeResult);
   ("connId", connId activeResult)].

(** The members of [MenuActions] ([./constants]) that this file names;
    [NotAMenuAction] is any other argument (a click event, [undefined]). *)
Inductive Choice :=
| ReRunQueryOption
| SaveCSVOption
| SaveJSONOption
| NotAMenuAction.

(** [sendMessage(action, payload)] *)
Inductive Outbound :=
| Call (command : string) (args : option (list Json))
| ReceivedState (s : QueryResultsState)
| ViewReady
| SyncConsoleMessages (msgs : list Json).

Inductive LogEntry :=
| Received (action : string) (payload : option (list IResult))
| Warn (action : string).

Record IWebviewMessage := {
  action : option string;
  payload : option (list IResult);
}.

(** The panel between two renders: the live state ([stateRef.current]),
    the messages posted to the host, the log lines written and the actions
    handed to [dispatch], each in the order of the calls. *)
Record Panel := {
  stateRef : QueryResultsState;
  outbox : list Outbound;
  logs : list LogEntry;
  dispatched : list Action;
}.

(** Modelled from the spec: [sendMessage] of [../../lib/messages] posts one
    message on the channel and returns without waiting for the host. *)
Definition sendMessage (m : Outbound) : M Panel unit :=
  modify (λ w, {| stateRef := stateRef w; outbox := outbox w ++ [m]; logs := logs w;
                  dispatched := dispatched w |}).

Definition write_log (l : LogEntry) : M Panel unit :=
  modify (λ w, {| stateRef := stateRef w; outbox := outbox w; logs := logs w ++ [l];
                  dispatched := dispatched w |}).

(** Modelled from the spec: [useReducer] of [./utils/useReducer.base]; the
    state is changed through the reducer only, and [stateRef.current] is the
    state after the last dispatch.  Every action handed to [dispatch] is
    recorded, whether the reducer accepts it or raises. *)
Definition dispatch (action : Action) : M Panel unit :=
  modify (λ w, {| stateRef := stateRef w; outbox := outbox w; logs := logs w;
                  dispatched := dispatched w ++ [action] |}) >>
  do w <- get;
  match reducer (stateRef w) action with
  | Normal s => modify (λ w, {| stateRef := s; outbox := outbox w; logs := logs w;
                                dispatched := dispatched w |})
  | Throw e => throw e
  end.

Section Screen.

(** [process.env.EXT_NAMESPACE], and the [state] of the render in which the
    handlers below were created. *)
Variable EXT_NAMESPACE : string.
Variable state : QueryResultsState.

Definition getCurrentResult (s : option QueryResultsState) : option IResult :=
  let s' := default state s in
  index (resultTabs s') (activeTab s').

Definition set (payload : Changes) : M Panel unit :=
  dispatch (SET (Some payload)).

Definition resetRequest : M Panel unit :=
  dispatch (RESULTS_RECEIVED None).

Definition toggleTab (value : Z) : M Panel unit :=
  dispatch (TOGGLE_TAB value).

Definition resultsReceived (changes : Changes) : M Panel unit :=
  dispatch (RESULTS_RECEIVED (Some changes)).

Definition focusMessages : M Panel unit :=
  sendMessage (Call (EXT_NAMESPACE +:+ "/consoleMessages.focus") None).

(** [{ loading: true }] *)
Definition loading_true : Changes :=
  {| c_loading := Some true; c_error := None; c_resultTabs := None; c_activeTab := None |}.

Definition fileType (choice : Choice) : Json :=
  match choice with
  | NotAMenuAction => JUndefined
  | SaveJSONOption => JStr "json"
  | _ => JStr "csv"
  end.

Definition exportResults (choice : Choice) : M Panel unit :=
  do w <- get;
  match getCurrentResult (Some (stateRef w)) with
  | None => ret tt
  | Some activeResult =>
      sendMessage (Call (EXT_NAMESPACE +:+ ".saveResults")
        (Some [JObj (getCurrentQueryOptions activeResult ++
                     [("fileType", fileType choice)])]))
  end.

Definition reRunQuery : M Panel unit :=
  do w <- get;
  match getCurrentResult (Some (stateRef w)) with
  | None => ret tt
  | Some activeResult =>
      if truthy (default "" (queryType activeResult)) then
        sendMessage (Call (EXT_NAMESPACE +:+ "." +:+ template (queryType activeResult))
          (Some [queryParams activeResult;
                 JObj (getCurrentQueryOptions activeResult ++
                       [("page", page activeResult);
                        ("pageSize", js_or (pageSize activeResult) (JNum 50))])])) >>
        set loading_true
      else
        sendMessage (Call (EXT_NAMESPACE +:+ ".executeQuery")
          (Some [query activeResult;
                 JObj (getCurrentQueryOptions activeResult)])) >>
        set loading_true
  end.

Definition changePage (page : Z) : M Panel unit :=
  set loading_true >>
  match index (resultTabs state) (activeTab state) with
  | None => throw (TypeError "Cannot read property 'queryType' of undefined")
  | Some activeResult =>
      sendMessage (Call (EXT_NAMESPACE +:+ "." +:+ template (queryType activeResult))
        (Some [queryParams activeResult;
               JObj [("page", JNum page);
                     ("pageSize", js_or (pageSize activeResult) (JNum 50));
                     ("requestId", requestId activeResult)]]))
  end.

Definition messagesHandler (msg : IWebviewMessage) : M Panel unit :=
  match action msg with
  | None => ret tt
  | Some EmptyString => ret tt
  | Some act =>
      write_log (Received act (payload msg)) >>
      if bool_decide (act = "queryResults") then
        match payload msg with
        | None => throw (TypeError "Cannot read property 'find' of undefined")
        | Some rs =>
            resultsReceived
              {| c_resultTabs := Some rs;
                 c_activeTab := Some 0%Z;
                 c_loading := Some false;
                 c_error := Some (List.find (λ r, js_truthy (NSDatabase.error r)) rs) |}
        end
      else if bool_decide (act = "reset") then resetRequest
      else if bool_decide (act = "getState") then
        do w <- get; sendMessage (ReceivedState (stateRef w))
      else write_log (Warn act)
  end.

(** The render shows the table, and with it the pagination control, the menu
    and the footer buttons, only under [activeResult && ...]. *)
Definition renders_table : bool :=
  bool_decide (is_Some (index (resultTabs state) (activeTab state))).

End Screen.

(** A handler run on a panel whose live state is [s], with nothing sent,
    logged or dispatched yet. *)
Definition run (h : M Panel unit) (s : QueryResultsState) : Completion unit * Panel :=
  h {| stateRef := s; outbox := []; logs := []; dispatched := [] |}.

(** *** The claims about the handlers, as the specification words them *)

(** A [call] message went out. *)
Definition call_sent (w : Panel) : Prop := ∃ command a, Call command a ∈ outbox w.

(** If [h] sends a [call], the state it leaves has [loading] set. *)
Definition call_sets_loading (h : M Panel unit) (s : QueryResultsState) : Prop :=
  call_sent (run h s).2 → loading (stateRef (run h s).2) = true.

(** The pagination call for the active result [r], page [p] and page size
    [size]. *)
Definition page_call (ns : string) (r : IResult) (p : Z) (size : Json) : Outbound :=
  Call (ns +:+ "." +:+ template (queryType r))
       (Some [queryParams r;
              JObj [("page", JNum p); ("pageSize", size); ("requestId", requestId r)]]).

(** [changePage(p)] sends exactly the pagination call whose page size is
    [pageSize ?? 50]. *)
Definition sends_nullish_page_call (ns : string) (state s : QueryResultsState) (p : Z)
    (r : IResult) : Prop :=
  outbox (run (changePage ns state p) s).2 =
    [page_call ns r p (nullish_or (pageSize r) (JNum 50))].


(** *** Sample states *)

Definition select_result (size : Json) : IResult :=
  {| requestId := JNum 7; resultId := JStr "r1"; baseQuery := JStr "select * from t";
     connId := JStr "c1"; queryType := Some "select";
     query := JStr "select * from t limit 50"; queryParams := JObj [("q", JStr "a")];
     pageSize := size; page := JNum 0; NSDatabase.error := JUndefined; messages := [] |}.

Definition showing (r : IResult) : QueryResultsState :=
  {| loading := false; error := None; resultTabs := [r]; activeTab := 0 |}.

Definition reset_message : IWebviewMessage := {| action := Some "reset"; payload := None |}.

(** *** More of the screen *)

(** [{ ...c1, ...c2 }] on payloads: the keys of [c2] win. *)
Definition overlay (c1 c2 : Changes) : Changes :=
  {| c_loading := match c_loading c2 with Some b => Some b | None => c_loading c1 end;
     c_error := match c_error c2 with Some e => Some e | None => c_error c1 end;
     c_resultTabs := match c_resultTabs c2 with Some t => Some t | None => c_resultTabs c1 end;
     c_activeTab := match c_activeTab c2 with Some i => Some i | None => c_activeTab c1 end |}.

(** The render's [const pageSize = (activeResult && activeResult.pageSize || 50)],
    which the table shows. *)
Definition table_pageSize (state : QueryResultsState) : Json :=
  js_or (match index (resultTabs state) (activeTab state) with
         | Some activeResult => pageSize activeResult
         | None => JUndefined
         end) (JNum 50).

(** What running a handler leaves, apart from the record of the dispatches:
    how it completed, the live state, the messages sent and the log. *)
Definition outcome (r : Completion unit * Panel)
    : Completion unit * QueryResultsState * list Outbound * list LogEntry :=
  (r.1, stateRef r.2, outbox r.2, logs r.2).

(** The state [s'] differs from [s] in [loading] at most. *)
Definition same_results (s s' : QueryResultsState) : Prop :=
  error s' = error s ∧ resultTabs s' = resultTabs s ∧ activeTab s' = activeTab s.

Definition query_results_message (rs : list IResult) : IWebviewMessage :=
  {| action := Some "queryResults"; payload := Some rs |}.

Definition get_state_message : IWebviewMessage :=
  {| action := Some "getState"; payload := None |}.

(** The [changes] that a [queryResults] message with payload [rs] is turned
    into. *)
Definition received_changes (rs : list IResult) : Changes :=
  {| c_resultTabs := Some rs;
     c_activeTab := Some 0%Z;
     c_loading := Some false;
     c_error := Some (List.find (λ r, js_truthy (NSDatabase.error r)) rs) |}.

(** The state a [queryResults] message with payload [rs] leads to. *)
Definition received (rs : list IResult) : QueryResultsState :=
  {| loading := false;
     error := List.find (λ r, js_truthy (NSDatabase.error r)) rs;
     resultTabs := rs;
     activeTab := 0 |}.

(** A result of a plain query, with no [queryType], and one that failed. *)
Definition plain_result : IResult :=
  {| requestId := JNum 8; resultId := JStr "r2"; baseQuery := JStr "delete from t";
     connId := JStr "c1"; queryType := None;
     query := JStr "delete from t"; queryParams := JUndefined;
     pageSize := JUndefined; page := JUndefined; NSDatabase.error := JUndefined;
     messages := [] |}.

Definition failed_result : IResult :=
  {| requestId := JNum 9; resultId := JStr "r3"; baseQuery := JStr "select * from nowhere";
     connId := JStr "c1"; queryType := None;
     query := JStr "select * from nowhere"; queryParams := JUndefined;
     pageSize := JUndefined; page := JUndefined; NSDatabase.error := JBool true;
     messages := [JStr "no such table"] |}.

End Results.

(** * Properties of the dispatch pipeline *)

Module ExtensionFacts.
Import Js Extension.

Section Dispatch.

Variable EXT_NAMESPACE : string.
Variable NODE_ENV : string.

Lemma world_eta (w : World) : {| this := this w; trace := trace w |} = w.
Proof. by destruct w. Qed.

Lemma forEach_call_hook {E} (obs : nat → E → Obs) (evt : E) (hooks : list (Hook E)) (w : World) :
  forEach hooks (call_hook obs evt) w =
    (match (hook_calls obs evt hooks).2 with
     | Some e => Throw e
     | None => Normal tt
     end,
     {| this := this w; trace := trace w ++ (hook_calls obs evt hooks).1 |}).
Proof.
  revert w. induction hooks as [|h hooks IH]; intros w; simpl.
  - by rewrite app_nil_r, world_eta.
  - unfold bind at 1, call_hook at 1. unfold bind at 1, emit at 1, modify at 1.
    destruct (hook_run h evt) as [e|] eqn:Hrun; simpl.
    + done.
    + rewrite IH. simpl. destruct (hook_calls obs evt hooks) as [t r]; simpl.
      by rewrite <- app_assoc.
Qed.

Lemma absorbed_run_hooks {E} (obs : nat → E → Obs) (phase command : string) (evt : E)
    (slot : Slot (Hook E)) (w : World) :
  truthy command = true →
  try_catch (run_hooks obs phase evt slot) (λ e, emit (UnexpectedError e)) w =
    (Normal tt,
     {| this := this w; trace := trace w ++ listener_trace obs phase command slot evt |}).
Proof.
  intros Hcmd. unfold try_catch, run_hooks, listener_trace. rewrite Hcmd.
  destruct slot as [[|h hooks]|len|]; cbn [length Nat.eqb];
    try by unfold ret; rewrite app_nil_r, world_eta.
  - unfold bind at 1, emit at 1, modify at 1.
    rewrite forEach_call_hook.
    destruct (hook_calls obs evt (h :: hooks)) as [t [e|]]; simpl.
    + unfold emit, modify; simpl. by rewrite <- !app_assoc.
    + by rewrite app_nil_r, <- !app_assoc.
  - case_bool_decide; [by unfold ret; rewrite app_nil_r, world_eta|].
    unfold bind, emit, modify, throw. simpl. by rewrite <- !app_assoc.
Qed.

Lemma fire_onWillRunCommandHandler (evt : ICommandEvent) (w : World) :
  fire onWillRunCommandHandler evt w =
    (Normal tt,
     {| this := this w;
        trace := trace w ++
          listener_trace CallBeforeHook "beforeCommandHooks" (command evt)
            (js_get (willRunCommandHooks (registry (this w))) (command evt)) evt |}).
Proof.
  unfold fire, onWillRunCommandHandler.
  destruct (truthy (command evt)) eqn:Hcmd; simpl.
  - by apply absorbed_run_hooks.
  - unfold listener_trace, try_catch, ret. by rewrite Hcmd, app_nil_r, world_eta.
Qed.

Lemma fire_onDidRunCommandSuccessfullyHandler (evt : ICommandSuccessEvent) (w : World) :
  fire onDidRunCommandSuccessfullyHandler evt w =
    (Normal tt,
     {| this := this w;
        trace := trace w ++
          listener_trace CallAfterHook "afterCommandSuccessfullyHooks" (s_command evt)
            (js_get (didRunCommandSuccessfullyHooks (registry (this w))) (s_command evt))
            evt |}).
Proof.
  unfold fire, onDidRunCommandSuccessfullyHandler.
  destruct (truthy (s_command evt)) eqn:Hcmd; simpl.
  - by apply absorbed_run_hooks.
  - unfold listener_trace, try_catch, ret. by rewrite Hcmd, app_nil_r, world_eta.
Qed.

(** Stepping through a computation, one statement at a time. *)
Lemma step_emit {A} (o : Obs) (k : unit → M World A) (w : World) :
  bind (emit o) k w = k tt {| this := this w; trace := trace w ++ [o] |}.
Proof. reflexivity. Qed.

Lemma step_ret {A B} (v : A) (k : A → M World B) (w : World) :
  bind (ret v) k w = k v w.
Proof. reflexivity. Qed.

Lemma step_throw {A B} (e : Thrown) (k : A → M World B) (w : World) :
  bind (throw e) k w = (Throw e, w).
Proof. reflexivity. Qed.

Lemma step_bind {A B C} (m : M World A) (f : A → M World B) (k : B → M World C) (w : World) :
  bind (bind m f) k w = bind m (λ v, bind (f v) k) w.
Proof. unfold bind. by destruct (m w) as [[v|e] w']. Qed.

Lemma step_fire_will {A} (evt : ICommandEvent) (k : unit → M World A) (w : World) :
  bind (fire onWillRunCommandHandler evt) k w =
    k tt {| this := this w;
            trace := trace w ++
              listener_trace CallBeforeHook "beforeCommandHooks" (command evt)
                (js_get (willRunCommandHooks (registry (this w))) (command evt)) evt |}.
Proof. unfold bind. by rewrite fire_onWillRunCommandHandler. Qed.

Lemma step_fire_did {A} (evt : ICommandSuccessEvent) (k : unit → M World A) (w : World) :
  bind (fire onDidRunCommandSuccessfullyHandler evt) k w =
    k tt {| this := this w;
            trace := trace w ++
              listener_trace CallAfterHook "afterCommandSuccessfullyHooks" (s_command evt)
                (js_get (didRunCommandSuccessfullyHooks (registry (this w))) (s_command evt))
                evt |}.
Proof. unfold bind. by rewrite fire_onDidRunCommandSuccessfullyHandler. Qed.

Ltac js_steps :=
  repeat first
    [ rewrite step_emit | rewrite step_ret | rewrite step_throw
    | rewrite step_fire_will | rewrite step_fire_did | rewrite step_bind ];
  cbn [this trace Extension.command s_command].

Ltac same_trace := simpl; rewrite <- ?app_assoc; simpl; reflexivity.

(** One dispatch, step by step. *)
Lemma dispatch_unfold (x : SQLToolsExtension) (command : string) (handler : Handler)
    (a : list Value) :
  dispatch EXT_NAMESPACE NODE_ENV x command handler a =
    let pre := log_line EXT_NAMESPACE NODE_ENV command a ::
               FireWillRun (will_run_event command a) ::
               before_trace x command a ++ [CallHandler a] in
    match handler a with
    | Throw e => (Throw e, pre)
    | Normal VNull => (Throw (TypeError "Cannot read property 'then' of null"), pre)
    | Normal ((VUndefined | VData _) as v) =>
        (Normal v, pre ++ FireDidRun (did_run_event command a v) :: after_trace x command a v)
    | Normal ((VThenable _ | VCatchOnly _) as v) =>
        match settle v with
        | Normal r =>
            (Normal r,
             pre ++ Suspend :: FireDidRun (did_run_event command a r) :: after_trace x command a r)
        | Throw e => (Throw e, pre ++ [Suspend])
        end
    end.
Proof.
  unfold dispatch, command_callback, log_line, before_trace, after_trace,
    will_run_event, did_run_event.
  assert (Hlog :
    (if bool_decide (NODE_ENV = "development")
     then emit (LogInfo ("EXECUTING => " +:+ EXT_NAMESPACE +:+ "." +:+ command) (Some a))
     else emit (LogInfo ("EXECUTING => " +:+ EXT_NAMESPACE +:+ "." +:+ command) None)) =
    emit (LogInfo ("EXECUTING => " +:+ EXT_NAMESPACE +:+ "." +:+ command)
            (if bool_decide (NODE_ENV = "development") then Some a else None)))
    by (by destruct (bool_decide (NODE_ENV = "development"))).
  rewrite Hlog. clear Hlog.
  unfold call_handler. js_steps.
  destruct (handler a) as [v|e]; js_steps; [|same_trace].
  destruct v as [| |d|s|d]; unfold looks_pending, await; js_steps;
    try same_trace.
  - destruct (settle (VThenable s)) as [r|e]; js_steps; same_trace.
  - cbn [settle]. js_steps. same_trace.
Qed.

(** *** Calls made by the listeners *)

Lemma hook_calls_quiet {E} (obs : nat → E → Obs) (evt : E) (hooks : list (Hook E)) :
  Forall (λ h, hook_run h evt = None) hooks →
  hook_calls obs evt hooks = (map (λ h, obs (hook_id h) evt) hooks, None).
Proof.
  induction 1 as [|h hooks Hh _ IH]; simpl; [done|].
  by rewrite Hh, IH.
Qed.

Lemma calls_app (t1 t2 : list Obs) : calls (t1 ++ t2) = calls t1 ++ calls t2.
Proof. apply List.filter_app. Qed.

Lemma calls_map {A} (f : A → Obs) (l : list A) :
  (∀ x, is_call (f x) = true) → calls (map f l) = map f l.
Proof.
  intros Hf. induction l as [|x l IH]; simpl; [done|].
  unfold calls in *. simpl. by rewrite Hf, IH.
Qed.

Lemma truthy_nonempty (s : string) : s ≠ "" → truthy s = true.
Proof. by destruct s. Qed.

Lemma hook_calls_until_throw {E} (obs : nat → E → Obs) (evt : E) (hooks : list (Hook E)) :
  (hook_calls obs evt hooks).1 = map (λ h, obs (hook_id h) evt) (until_throw evt hooks).
Proof.
  induction hooks as [|h hooks IH]; simpl; [done|].
  destruct (hook_run h evt); [done|].
  destruct (hook_calls obs evt hooks) as [t r]; simpl in *. by rewrite IH.
Qed.

Lemma until_throw_quiet {E} (evt : E) (hooks : list (Hook E)) :
  Forall (λ h, hook_run h evt = None) hooks → until_throw evt hooks = hooks.
Proof. induction 1 as [|h hooks Hh _ IH]; simpl; [done|]. by rewrite Hh, IH. Qed.

Lemma until_throw_stops {E} (evt : E) (pre post : list (Hook E)) (h : Hook E) :
  Forall (λ h, hook_run h evt = None) pre → hook_run h evt ≠ None →
  until_throw evt (pre ++ h :: post) = pre ++ [h].
Proof.
  intros Hpre Hh. induction Hpre as [|h' pre Hh' _ IH]; simpl.
  - by destruct (hook_run h evt).
  - by rewrite Hh', IH.
Qed.

(** The calls a listener makes, whatever [hooks[command]] reads. *)
Lemma calls_listener_trace {E} (obs : nat → E → Obs) (phase command : string)
    (table : gmap string (list (Hook E))) (evt : E) :
  (∀ id e, is_call (obs id e) = true) →
  calls (listener_trace obs phase command (js_get table command) evt) =
    map (λ h, obs (hook_id h) evt) (hooks_called table command evt).
Proof.
  intros Hobs. unfold listener_trace, hooks_called, hooks_of, js_get.
  destruct (truthy command); [|done].
  destruct (table !! command) as [[|h hooks]|]; cbn [default from_option id].
  - done.
  - change (calls (LogDebug ?n ?p :: ?t)) with (calls t).
    rewrite calls_app, hook_calls_until_throw, calls_map by done.
    destruct (hook_calls obs evt (h :: hooks)).2; by rewrite app_nil_r.
  - destruct (object_prototype command) as [len|]; [|done].
    by case_bool_decide.
Qed.

(** *** Events of a listener *)

Lemma hook_calls_Forall {E} (P : Obs → Prop) (obs : nat → E → Obs) (evt : E)
    (hooks : list (Hook E)) :
  (∀ id, P (obs id evt)) → Forall P (hook_calls obs evt hooks).1.
Proof.
  intros Hobs. induction hooks as [|h hooks IH]; simpl; [constructor|].
  destruct (hook_run h evt); simpl; [by repeat constructor|].
  destruct (hook_calls obs evt hooks) as [t r]; simpl in *.
  by constructor.
Qed.

(** A listener only logs, calls its hooks, and has its failure absorbed. *)
Lemma listener_trace_Forall {E} (P : Obs → Prop) (obs : nat → E → Obs)
    (phase command : string) (slot : Slot (Hook E)) (evt : E) :
  (∀ n p, P (LogDebug n p)) → (∀ id, P (obs id evt)) → (∀ e, P (UnexpectedError e)) →
  Forall P (listener_trace obs phase command slot evt).
Proof.
  intros Hlog Hobs Herr. unfold listener_trace.
  destruct (truthy command); [|constructor].
  destruct slot as [[|h hooks]|len|]; try constructor; try done.
  - apply Forall_app. split.
    + by apply hook_calls_Forall.
    + destruct (hook_calls _ _ _).2; by repeat constructor.
  - case_bool_decide; by repeat constructor.
Qed.

Lemma before_trace_no_success (x : SQLToolsExtension) (command : string) (a : list Value) :
  Forall (λ o, is_success_obs o = false) (before_trace x command a).
Proof. by apply listener_trace_Forall. Qed.

Lemma before_trace_no_suspend (x : SQLToolsExtension) (command : string) (a : list Value) :
  Forall (λ o, o ≠ Suspend) (before_trace x command a).
Proof. by apply listener_trace_Forall. Qed.

Lemma no_success_not_elem (tr : list Obs) :
  Forall (λ o, is_success_obs o = false) tr →
  (∀ evt, FireDidRun evt ∉ tr) ∧ (∀ id evt, CallAfterHook id evt ∉ tr).
Proof.
  intros Hall. rewrite Forall_forall in Hall.
  split; [intros evt Hin | intros id evt Hin]; by apply Hall in Hin.
Qed.

(** Up to and including the call of the handler, nothing says that the
    command ran successfully. *)
Lemma prefix_no_success (x : SQLToolsExtension) (command : string) (a : list Value)
    (rest : list Obs) :
  Forall (λ o, is_success_obs o = false) rest →
  Forall (λ o, is_success_obs o = false)
    ((log_line EXT_NAMESPACE NODE_ENV command a ::
      FireWillRun (will_run_event command a) ::
      before_trace x command a ++ [CallHandler a]) ++ rest).
Proof.
  intros Hrest. apply Forall_app. split; [|done].
  repeat (constructor; [done|]).
  apply Forall_app. split; [apply before_trace_no_success | by repeat constructor].
Qed.

(** *** One dispatch *)

(** What a dispatch calls up to and including the handler, and after it. *)
Lemma calls_until_handler (x : SQLToolsExtension) (command : string) (a : list Value) :
  calls (log_line EXT_NAMESPACE NODE_ENV command a ::
         FireWillRun (will_run_event command a) ::
         before_trace x command a ++ [CallHandler a]) =
    map (λ h, CallBeforeHook (hook_id h) (will_run_event command a))
        (hooks_called (willRunCommandHooks (registry x)) command (will_run_event command a)) ++
    [CallHandler a].
Proof.
  change (calls (log_line ?n ?e ?c ?b :: FireWillRun ?evt :: ?t)) with (calls t).
  rewrite calls_app. unfold before_trace. by rewrite calls_listener_trace.
Qed.

Lemma calls_after_handler (x : SQLToolsExtension) (command : string) (a : list Value)
    (r : Value) :
  calls (after_trace x command a r) =
    map (λ h, CallAfterHook (hook_id h) (did_run_event command a r))
        (hooks_called (didRunCommandSuccessfullyHooks (registry x)) command
           (did_run_event command a r)).
Proof. unfold after_trace. by rewrite calls_listener_trace. Qed.

Lemma calls_of_dispatch (x : SQLToolsExtension) (command : string) (handler : Handler)
    (a : list Value) :
  calls (dispatch EXT_NAMESPACE NODE_ENV x command handler a).2 =
    match handler a with
    | Normal VNull =>
        map (λ h, CallBeforeHook (hook_id h) (will_run_event command a))
            (hooks_called (willRunCommandHooks (registry x)) command
               (will_run_event command a)) ++ [CallHandler a]
    | _ => dispatch_calls x command handler a
    end.
Proof.
  unfold dispatch_calls. rewrite dispatch_unfold. cbv zeta.
  pose proof (calls_until_handler x command a) as Hpre.
  pose proof (calls_after_handler x command a) as Hpost.
  destruct (handler a) as [v|e]; [|cbn [snd]; by rewrite Hpre].
  destruct v as [| |d|s|d]; [| done | | |].
  - cbn [snd settle]. rewrite calls_app, Hpre.
    change (calls (FireDidRun ?e :: ?t)) with (calls t).
    by rewrite Hpost, <- app_assoc.
  - cbn [snd settle]. rewrite calls_app, Hpre.
    change (calls (FireDidRun ?e :: ?t)) with (calls t).
    by rewrite Hpost, <- app_assoc.
  - destruct (settle (VThenable s)) as [r|e]; cbn [snd]; rewrite calls_app, Hpre.
    + change (calls (Suspend :: FireDidRun ?e :: ?t)) with (calls t).
      by rewrite Hpost, <- app_assoc.
    + by rewrite <- app_assoc.
  - cbn [snd settle]. rewrite calls_app, Hpre.
    change (calls (Suspend :: FireDidRun ?e :: ?t)) with (calls t).
    by rewrite Hpost, <- app_assoc.
Qed.

(** C1, amended.  In every dispatch the before-hooks registered for the
    command are called in registration order, each once, up to and including
    the first one that throws (all of them when none throws, none when the
    command's name is empty), and strictly before the handler, which is
    then called.  When the handler returns a value other than [null] and
    that value does not reject, the after-hooks are called next, in
    registration order, each once and with the settled result, again up to
    and including the first one that throws and none for the empty name;
    when the handler throws or its result rejects, no after-hook is called.
    In particular, for a command whose name is not empty and whose hooks all
    return, the calls are those of the claim. *)
Theorem dispatch_runs_hooks_in_order (x : SQLToolsExtension) (command : string)
    (handler : Handler) (a : list Value) :
  (∃ rest,
     calls (dispatch EXT_NAMESPACE NODE_ENV x command handler a).2 =
       map (λ h, CallBeforeHook (hook_id h) (will_run_event command a))
           (hooks_called (willRunCommandHooks (registry x)) command
              (will_run_event command a)) ++
       CallHandler a :: rest) ∧
  (handler a ≠ Normal VNull →
     calls (dispatch EXT_NAMESPACE NODE_ENV x command handler a).2 =
       dispatch_calls x command handler a) ∧
  (command = "" →
     calls (dispatch EXT_NAMESPACE NODE_ENV x command handler a).2 = [CallHandler a]) ∧
  (∀ pre h post,
     command ≠ "" →
     hooks_of (willRunCommandHooks (registry x)) command = pre ++ h :: post →
     Forall (λ h', hook_run h' (will_run_event command a) = None) pre →
     hook_run h (will_run_event command a) ≠ None →
     ∃ rest,
       calls (dispatch EXT_NAMESPACE NODE_ENV x command handler a).2 =
         map (λ h', CallBeforeHook (hook_id h') (will_run_event command a)) (pre ++ [h]) ++
         CallHandler a :: rest) ∧
  (command ≠ "" →
   Forall (λ h, hook_run h (will_run_event command a) = None)
          (hooks_of (willRunCommandHooks (registry x)) command) →
   (∀ r, Forall (λ h, hook_run h (did_run_event command a r) = None)
                (hooks_of (didRunCommandSuccessfullyHooks (registry x)) command)) →
   handler a ≠ Normal VNull →
   hooks_run_in_order EXT_NAMESPACE NODE_ENV x command handler a).
Proof.
  assert (Hfirst : ∃ rest,
     calls (dispatch EXT_NAMESPACE NODE_ENV x command handler a).2 =
       map (λ h, CallBeforeHook (hook_id h) (will_run_event command a))
           (hooks_called (willRunCommandHooks (registry x)) command
              (will_run_event command a)) ++
       CallHandler a :: rest).
  { rewrite calls_of_dispatch. unfold dispatch_calls.
    destruct (handler a) as [[| | | |]|]; by eexists. }
  assert (Hall : handler a ≠ Normal VNull →
     calls (dispatch EXT_NAMESPACE NODE_ENV x command handler a).2 =
       dispatch_calls x command handler a).
  { intros Hnull. rewrite calls_of_dispatch. by destruct (handler a) as [[| | | |]|]. }
  split; [done|]. split; [done|]. split; [|split].
  - intros ->. rewrite calls_of_dispatch. unfold dispatch_calls, hooks_called.
    cbn [truthy map app].
    destruct (handler a) as [v|e]; [|done].
    destruct v; try done; by destruct (settle _).
  - intros pre h post Hcmd Hhooks Hpre Hh. destruct Hfirst as [rest Hrest].
    exists rest. rewrite Hrest. unfold hooks_called.
    by rewrite (truthy_nonempty _ Hcmd), Hhooks, until_throw_stops.
  - intros Hcmd Hbefore Hafter Hnull.
    unfold hooks_run_in_order, expected_calls. rewrite (Hall Hnull).
    unfold dispatch_calls, hooks_called. rewrite (truthy_nonempty _ Hcmd).
    rewrite (until_throw_quiet _ _ Hbefore).
    destruct (handler a) as [v|e]; [|done].
    destruct (settle v) as [r|e]; [|done].
    by rewrite (until_throw_quiet _ _ (Hafter r)).
Qed.

(** C2.  When the handler throws, or returns a pending computation that
    rejects, the dispatch fails with that same error, the "ran successfully"
    event is not fired and no after-hook is called. *)
Theorem failed_dispatch_propagates (x : SQLToolsExtension) (command : string)
    (handler : Handler) (a : list Value) (e : Thrown) :
  fails_with handler a e →
  (dispatch EXT_NAMESPACE NODE_ENV x command handler a).1 = Throw e ∧
  (∀ evt, FireDidRun evt ∉ (dispatch EXT_NAMESPACE NODE_ENV x command handler a).2) ∧
  (∀ id evt, CallAfterHook id evt ∉ (dispatch EXT_NAMESPACE NODE_ENV x command handler a).2).
Proof.
  intros Hfail. rewrite dispatch_unfold. cbv zeta.
  destruct Hfail as [-> | (s & -> & Hs)].
  - split; [done|]. apply no_success_not_elem.
    rewrite <- (app_nil_r (_ :: _)). by apply prefix_no_success.
  - rewrite Hs. split; [done|]. apply no_success_not_elem.
    apply prefix_no_success. by repeat constructor.
Qed.

(** C3, at the failing input.  A handler that returns [null] completes
    without throwing, yet the dispatch fails with a [TypeError] raised by the
    test for a pending computation, and the "ran successfully" event is not
    fired. *)
Theorem null_result_is_not_reported (x : SQLToolsExtension) (command : string)
    (a : list Value) :
  (dispatch EXT_NAMESPACE NODE_ENV x command (λ _, Normal VNull) a).1 =
    Throw (TypeError "Cannot read property 'then' of null") ∧
  ∀ evt, FireDidRun evt ∉ (dispatch EXT_NAMESPACE NODE_ENV x command (λ _, Normal VNull) a).2.
Proof.
  rewrite dispatch_unfold. cbv zeta. split; [done|].
  apply no_success_not_elem.
  rewrite <- (app_nil_r (_ :: _)). by apply prefix_no_success.
Qed.

(** X9.  How far C3 holds: for any result but [null] that does not reject, the
    "ran successfully" event is fired with the settled result, and for a
    result that is not shaped like a pending computation it is fired in the
    turn of the call, with the very value returned. *)
Lemma success_event_fired (x : SQLToolsExtension) (command : string)
    (handler : Handler) (a : list Value) (v r : Value) :
  handler a = Normal v → v ≠ VNull → settle v = Normal r →
  FireDidRun (did_run_event command a r) ∈
    (dispatch EXT_NAMESPACE NODE_ENV x command handler a).2 ∧
  (match v with
   | VUndefined | VData _ =>
       r = v ∧ ∃ t1 t2,
         (dispatch EXT_NAMESPACE NODE_ENV x command handler a).2 =
           t1 ++ FireDidRun (did_run_event command a v) :: t2 ∧ Suspend ∉ t1
   | _ => True
   end).
Proof.
  intros Hv Hnull Hr. rewrite dispatch_unfold, Hv. cbv zeta.
  assert (Hpre : Suspend ∉ log_line EXT_NAMESPACE NODE_ENV command a ::
                           FireWillRun (will_run_event command a) ::
                           before_trace x command a ++ [CallHandler a]).
  { intros Hin.
    assert (Hall : Forall (λ o, o ≠ Suspend)
              (log_line EXT_NAMESPACE NODE_ENV command a ::
               FireWillRun (will_run_event command a) ::
               before_trace x command a ++ [CallHandler a])).
    { repeat (constructor; [done|]). apply Forall_app. split.
      - apply before_trace_no_suspend.
      - by repeat constructor. }
    rewrite Forall_forall in Hall. by apply Hall in Hin. }
  destruct v as [| |d|s|d]; try done; cbn [snd].
  - injection Hr as <-. split; [|split; [done|eauto]].
    apply elem_of_app. right. by left.
  - injection Hr as <-. split; [|split; [done|eauto]].
    apply elem_of_app. right. by left.
  - rewrite Hr. cbn [snd]. split; [|done].
    apply elem_of_app. right. right. by left.
  - injection Hr as <-. cbn [settle snd]. split; [|done].
    apply elem_of_app. right. right. by left.
Qed.

(** C9.  When a dispatch succeeds, what the caller receives is what the
    handler returned, a pending computation being replaced by the value it
    settles to; neither the namespace, nor the hooks, nor the logging
    changes it. *)
Theorem dispatch_returns_handler_result (x : SQLToolsExtension) (command : string)
    (handler : Handler) (a : list Value) (r : Value) :
  (dispatch EXT_NAMESPACE NODE_ENV x command handler a).1 = Normal r →
  succeeds_with handler a r.
Proof.
  rewrite dispatch_unfold. cbv zeta. unfold succeeds_with.
  destruct (handler a) as [v|e]; [|done].
  destruct v as [| |d|s|d]; cbn [fst]; try done.
  - intros [= <-]. by exists VUndefined.
  - intros [= <-]. by exists (VData d).
  - destruct (settle (VThenable s)) as [r'|e] eqn:Hs; cbn [fst]; [|done].
    intros [= <-]. by exists (VThenable s).
  - cbn [settle fst]. intros [= <-]. by exists (VCatchOnly d).
Qed.

(** The entry that [decorateAndRegisterCommand] adds is named under the
    namespace, and invoking it is the dispatch of [command] to [handler]. *)
Lemma invoke_registered (command : string) (handler : Handler) (type : CommandType)
    (r : Registry) :
  ∃ reg, subscriptions (decorateAndRegisterCommand EXT_NAMESPACE command handler type r) =
           subscriptions r ++ [reg] ∧
         reg_id reg = EXT_NAMESPACE +:+ "." +:+ command ∧
         invoke EXT_NAMESPACE NODE_ENV reg =
           command_callback EXT_NAMESPACE NODE_ENV command handler.
Proof. by eexists. Qed.

End Dispatch.

(** *** A load pass *)

Lemma load_plugin_unfold (p : IExtensionPlugin) (w : World) :
  load_plugin p w =
    (Normal tt,
     {| this := {| pluginsQueue := pluginsQueue (this w);
                   extPlugins := load_record p (registry (this w)) (extPlugins (this w));
                   registry := (register p (registry (this w))).1;
                   loaded := loaded (this w) |};
        trace := trace w ++ pass_trace [p] (registry (this w)) (extPlugins (this w)) |}).
Proof.
  unfold load_plugin, try_catch, bind, emit, update, modify, get, load_record. simpl.
  unfold load_error.
  destruct (register p (registry (this w))) as [r [e|]]; simpl.
  - unfold errorHandler, emit, modify. simpl. by rewrite <- app_assoc.
  - destruct (record_extension p (extPlugins (this w))) as [m [e|]]; simpl.
    + unfold errorHandler, emit, modify. simpl. by rewrite <- app_assoc.
    + done.
Qed.

Lemma record_all_loaded (p : IExtensionPlugin) (queue : list IExtensionPlugin)
    (r : Registry) (m : gmap string (list string)) :
  record_all (loaded_in_pass (p :: queue) r) m =
    record_all (loaded_in_pass queue (register p r).1) (load_record p r m).
Proof. unfold load_record. simpl. by destruct (register p r).2. Qed.

Lemma forEach_load_plugin (queue : list IExtensionPlugin) (w : World) :
  forEach queue load_plugin w =
    (Normal tt,
     {| this := {| pluginsQueue := pluginsQueue (this w);
                   extPlugins := record_all (loaded_in_pass queue (registry (this w)))
                                            (extPlugins (this w));
                   registry := registry_after queue (registry (this w));
                   loaded := loaded (this w) |};
        trace := trace w ++ pass_trace queue (registry (this w)) (extPlugins (this w)) |}).
Proof.
  revert w. induction queue as [|p queue IH]; intros w.
  - simpl. rewrite app_nil_r. by destruct w as [[] ?].
  - cbn [forEach]. unfold bind at 1. rewrite load_plugin_unfold, IH.
    cbn [this trace registry extPlugins pluginsQueue loaded].
    rewrite record_all_loaded. cbn [pass_trace registry_after foldl].
    by rewrite app_nil_r, <- !app_assoc.
Qed.

Lemma loadPlugins_unfold (w : World) :
  loadPlugins w =
    (Normal tt,
     {| this := {| pluginsQueue := [];
                   extPlugins := record_all
                     (loaded_in_pass (pluginsQueue (this w)) (registry (this w)))
                     (extPlugins (this w));
                   registry := registry_after (pluginsQueue (this w)) (registry (this w));
                   loaded := true |};
        trace := trace w ++
                 pass_trace (pluginsQueue (this w)) (registry (this w)) (extPlugins (this w)) ++
                 [UpdateExtPluginsInfo] |}).
Proof.
  unfold loadPlugins, updateExtPluginsInfo.
  unfold bind at 1, get at 1.
  unfold bind at 1, update at 1, modify at 1.
  unfold bind at 1, update at 1, modify at 1. cbn [this trace].
  unfold bind at 1. rewrite forEach_load_plugin.
  unfold emit, modify. cbn [this trace set_loaded set_pluginsQueue pluginsQueue extPlugins
    registry loaded].
  by rewrite orb_true_r, <- app_assoc.
Qed.

Lemma registered_app (t1 t2 : list Obs) : registered (t1 ++ t2) = registered t1 ++ registered t2.
Proof. apply omap_app. Qed.

Lemma reported_app (t1 t2 : list Obs) : reported (t1 ++ t2) = reported t1 ++ reported t2.
Proof. apply omap_app. Qed.

Lemma registered_pass_trace (queue : list IExtensionPlugin) (r : Registry)
    (m : gmap string (list string)) :
  registered (pass_trace queue r m) = map name queue.
Proof.
  revert r m. induction queue as [|p queue IH]; intros r m; [done|].
  cbn [pass_trace map].
  change (registered (CallRegister ?n :: ?t)) with (n :: registered t).
  rewrite registered_app, IH. by destruct (load_error p r m).
Qed.

(** What is filed under a tag after one plugin, and after a whole queue. *)
Lemma js_get_plain {A} (o : gmap string (list A)) (key : string) :
  object_prototype key = None → js_get o key = Own (default [] (o !! key)) ∨ js_get o key = Missing.
Proof. intros Hkey. unfold js_get. rewrite Hkey. destruct (o !! key); auto. Qed.

Lemma record_extension_filed (p : IExtensionPlugin) (m : gmap string (list string))
    (k id : string) :
  id ∈ recorded (record_extension p m).1 k →
  id ∈ recorded m k ∨ (tag p = k ∧ declared_id p = Some id).
Proof.
  unfold record_extension, declared_id, tag, recorded.
  destruct (extensionId p) as [i|]; [|auto].
  destruct (truthy i); [|auto].
  assert (Hins : id ∈ default []
            (<[or_else (type p) "general" :=
                 if bool_decide (i ∈ default [] (m !! or_else (type p) "general"))
                 then default [] (m !! or_else (type p) "general")
                 else default [] (m !! or_else (type p) "general") ++ [i]]> m !! k) →
          id ∈ default [] (m !! k) ∨ (or_else (type p) "general" = k ∧ Some i = Some id)).
  { destruct (decide (or_else (type p) "general" = k)) as [<-|Hne].
    - rewrite lookup_insert_eq. simpl. case_bool_decide as Hi; [auto|].
      rewrite elem_of_app, list_elem_of_singleton. intros [?| ->]; auto.
    - rewrite lookup_insert_ne by done. auto. }
  destruct (js_get m (or_else (type p) "general")); cbn [fst]; auto.
Qed.

Lemma record_extension_plain (p : IExtensionPlugin) (m : gmap string (list string))
    (id : string) :
  plain_tag p →
  (record_extension p m).2 = None ∧
  (declared_id p = Some id → id ∈ recorded (record_extension p m).1 (tag p)).
Proof.
  unfold plain_tag, record_extension, declared_id, tag, recorded. intros Hplain.
  destruct (extensionId p) as [i|]; [|done].
  destruct (truthy i); [|done].
  destruct (js_get_plain m _ Hplain) as [-> | ->]; cbn [fst snd]; (split; [done|]);
    intros [= <-]; rewrite lookup_insert_eq; simpl; case_bool_decide; try done;
    apply elem_of_app; right; by left.
Qed.

Lemma record_extension_prefix (p : IExtensionPlugin) (m : gmap string (list string))
    (k : string) :
  recorded m k `prefix_of` recorded (record_extension p m).1 k.
Proof.
  unfold record_extension, recorded.
  destruct (extensionId p) as [i|]; [|done].
  destruct (truthy i); [|done].
  assert (Hins : default [] (m !! k) `prefix_of` default []
            (<[or_else (type p) "general" :=
                 if bool_decide (i ∈ default [] (m !! or_else (type p) "general"))
                 then default [] (m !! or_else (type p) "general")
                 else default [] (m !! or_else (type p) "general") ++ [i]]> m !! k)).
  { destruct (decide (or_else (type p) "general" = k)) as [<-|Hne].
    - rewrite lookup_insert_eq. simpl. case_bool_decide; [done|]. by apply prefix_app_r.
    - by rewrite lookup_insert_ne. }
  by destruct (js_get m (or_else (type p) "general")).
Qed.

Lemma record_extension_NoDup (p : IExtensionPlugin) (m : gmap string (list string)) :
  (∀ k, NoDup (recorded m k)) → ∀ k, NoDup (recorded (record_extension p m).1 k).
Proof.
  intros Hm k. specialize (Hm k) as Hk. unfold record_extension, recorded in *.
  destruct (extensionId p) as [i|]; [|done].
  destruct (truthy i); [|done].
  assert (Hins : NoDup (default []
            (<[or_else (type p) "general" :=
                 if bool_decide (i ∈ default [] (m !! or_else (type p) "general"))
                 then default [] (m !! or_else (type p) "general")
                 else default [] (m !! or_else (type p) "general") ++ [i]]> m !! k))).
  { destruct (decide (or_else (type p) "general" = k)) as [<-|Hne].
    - rewrite lookup_insert_eq. simpl. case_bool_decide as Hi; [done|].
      apply NoDup_app. split; [done|]. split; [|apply NoDup_singleton].
      intros x Hx ->%list_elem_of_singleton. done.
    - by rewrite lookup_insert_ne. }
  by destruct (js_get m (or_else (type p) "general")).
Qed.

Lemma record_all_filed (queue : list IExtensionPlugin) (m : gmap string (list string))
    (k id : string) :
  id ∈ recorded (record_all queue m) k →
  id ∈ recorded m k ∨ ∃ p, p ∈ queue ∧ tag p = k ∧ declared_id p = Some id.
Proof.
  unfold record_all. revert m. induction queue as [|q queue IH]; intros m; simpl; [auto|].
  intros [Hin|(p & Hp & ?)]%IH.
  - apply record_extension_filed in Hin as [?|[? ?]]; [by left|].
    right. exists q. split; [by left|done].
  - right. exists p. split; [by right|done].
Qed.

Lemma record_all_prefix (queue : list IExtensionPlugin) (m : gmap string (list string))
    (k : string) :
  recorded m k `prefix_of` recorded (record_all queue m) k.
Proof.
  unfold record_all. revert m. induction queue as [|p queue IH]; intros m; simpl; [done|].
  etrans; [apply record_extension_prefix | apply IH].
Qed.

Lemma record_all_NoDup (queue : list IExtensionPlugin) (m : gmap string (list string)) :
  (∀ k, NoDup (recorded m k)) → ∀ k, NoDup (recorded (record_all queue m) k).
Proof.
  unfold record_all. revert m. induction queue as [|p queue IH]; intros m Hm; simpl; [done|].
  apply IH. by apply record_extension_NoDup.
Qed.

Lemma record_all_plain (queue : list IExtensionPlugin) (m : gmap string (list string))
    (p : IExtensionPlugin) (id : string) :
  p ∈ queue → plain_tag p → declared_id p = Some id →
  id ∈ recorded (record_all queue m) (tag p).
Proof.
  unfold record_all. revert m. induction queue as [|q queue IH]; intros m Hp Hplain Hid.
  - by apply elem_of_nil in Hp.
  - simpl. apply elem_of_cons in Hp as [<-|Hp]; [|by apply IH].
    eapply elem_of_prefix; [|apply (record_all_prefix queue)].
    by apply record_extension_plain.
Qed.

(** A pass in which every [register] returns and every tag is plain loads
    every plugin and reports nothing. *)
Lemma pass_without_failure (queue : list IExtensionPlugin) (r : Registry)
    (m : gmap string (list string)) :
  call_outcomes queue r = replicate (length queue) None →
  Forall plain_tag queue →
  loaded_in_pass queue r = queue ∧ reported (pass_trace queue r m) = [].
Proof.
  revert r m. induction queue as [|p queue IH]; intros r m Hcalls Hplain; [done|].
  cbn [call_outcomes length replicate] in Hcalls. injection Hcalls as Hp Hrest.
  apply Forall_cons in Hplain as [Hplain Hplains].
  destruct (IH (register p r).1 (load_record p r m) Hrest Hplains) as [Hloaded Hreported].
  cbn [loaded_in_pass pass_trace]. unfold load_error. rewrite Hp, Hloaded.
  split; [done|].
  destruct (record_extension_plain p m "" Hplain) as [-> _]. exact Hreported.
Qed.

(** A pass in which exactly one [register] call throws. *)
Lemma pass_with_one_failure (before after : list IExtensionPlugin) (bad : IExtensionPlugin)
    (e : Thrown) (r : Registry) (m : gmap string (list string)) :
  call_outcomes (before ++ bad :: after) r =
    replicate (length before) None ++ Some e :: replicate (length after) None →
  Forall plain_tag (before ++ after) →
  loaded_in_pass (before ++ bad :: after) r = before ++ after ∧
  reported (pass_trace (before ++ bad :: after) r m) =
    [("Error loading plugin " +:+ name bad, e)].
Proof.
  revert r m. induction before as [|p before IH]; intros r m Hcalls Hplain.
  - cbn [app length replicate call_outcomes] in *. injection Hcalls as Hbad Hrest.
    destruct (pass_without_failure after (register bad r).1 (load_record bad r m) Hrest Hplain)
      as [Hloaded Hreported].
    cbn [loaded_in_pass pass_trace]. unfold load_error. rewrite Hbad, Hloaded.
    split; [done|]. cbn [app].
    change (reported (CallRegister ?n :: ReportError ?msg ?err :: ?t))
      with ((msg, err) :: reported t).
    by rewrite Hreported.
  - cbn [app length replicate call_outcomes] in *. injection Hcalls as Hp Hrest.
    apply Forall_cons in Hplain as [Hplain Hplains].
    destruct (IH (register p r).1 (load_record p r m) Hrest Hplains) as [Hloaded Hreported].
    cbn [loaded_in_pass pass_trace]. unfold load_error. rewrite Hp, Hloaded.
    split; [done|].
    destruct (record_extension_plain p m "" Hplain) as [-> _]. exact Hreported.
Qed.

(** C4, amended.  In a pass over a queue in which exactly one [register]
    call throws and no plugin that loads is filed under a tag naming a
    member inherited from [Object.prototype]: the pass returns normally;
    [register] is called on every plugin, in queue order; the one failure is
    reported with the plugin's name; every id declared by a plugin that
    loaded is filed under its tag; and the pass files nothing for the
    failing plugin: the bookkeeping is exactly what the plugins that loaded
    put there, so that the id of the failing plugin is filed only if it was
    there before the pass or if a plugin that loaded declares it under the
    same tag. *)
Theorem load_pass_isolates_failure (x : SQLToolsExtension)
    (before after : list IExtensionPlugin) (bad : IExtensionPlugin) (e : Thrown) :
  pluginsQueue x = before ++ bad :: after →
  call_outcomes (before ++ bad :: after) (registry x) =
    replicate (length before) None ++ Some e :: replicate (length after) None →
  Forall plain_tag (before ++ after) →
  ∃ w, loadPlugins {| this := x; trace := [] |} = (Normal tt, w) ∧
    registered (trace w) = map name (before ++ bad :: after) ∧
    reported (trace w) = [("Error loading plugin " +:+ name bad, e)] ∧
    (∀ p id, p ∈ before ++ after → declared_id p = Some id →
       id ∈ recorded (extPlugins (this w)) (tag p)) ∧
    extPlugins (this w) = record_all (before ++ after) (extPlugins x) ∧
    (∀ id, declared_id bad = Some id →
       (id ∈ recorded (extPlugins (this w)) (tag bad) ↔
        id ∈ recorded (extPlugins x) (tag bad) ∨
        ∃ p, p ∈ before ++ after ∧ tag p = tag bad ∧ declared_id p = Some id)).
Proof.
  intros Hqueue Hcalls Hplain.
  destruct (pass_with_one_failure before after bad e (registry x) (extPlugins x) Hcalls Hplain)
    as [Hloaded Hreported].
  rewrite loadPlugins_unfold. cbn [this trace]. rewrite Hqueue, Hloaded.
  eexists. split; [reflexivity|]. cbn [this trace extPlugins app].
  split; [|split; [|split; [|split; [done|]]]].
  - rewrite registered_app, registered_pass_trace.
    change (registered [UpdateExtPluginsInfo]) with (@nil string).
    by rewrite app_nil_r.
  - rewrite reported_app, Hreported.
    by change (reported [UpdateExtPluginsInfo]) with (@nil (string * Thrown)).
  - intros p id Hp Hid. apply record_all_plain; [done| |done].
    rewrite Forall_forall in Hplain. by apply Hplain.
  - intros id Hid. split; [apply record_all_filed|].
    intros [Hin|(p & Hp & Htag & Hdecl)].
    + eapply elem_of_prefix; [done|apply record_all_prefix].
    + rewrite <- Htag. apply record_all_plain; [done| |done].
      rewrite Forall_forall in Hplain. by apply Hplain.
Qed.

(** *** Instances *)

Example sample_dispatch :
  dispatch "sqltools" "production" sample_extension "runQuery"
    (λ _, Normal (VThenable (Fulfils (VData "rows")))) [VData "select 1"] =
  (Normal (VData "rows"),
   [LogInfo "EXECUTING => sqltools.runQuery" None;
    FireWillRun (will_run_event "runQuery" [VData "select 1"]);
    LogDebug (Some 2) "beforeCommandHooks";
    CallBeforeHook 1 (will_run_event "runQuery" [VData "select 1"]);
    CallBeforeHook 2 (will_run_event "runQuery" [VData "select 1"]);
    CallHandler [VData "select 1"];
    Suspend;
    FireDidRun (did_run_event "runQuery" [VData "select 1"] (VData "rows"));
    LogDebug (Some 2) "afterCommandSuccessfullyHooks";
    CallAfterHook 3 (did_run_event "runQuery" [VData "select 1"] (VData "rows"));
    CallAfterHook 4 (did_run_event "runQuery" [VData "select 1"] (VData "rows"))]).
Proof. vm_compute. reflexivity. Qed.

Lemma dispatch_runs_hooks_in_order_witness :
  hooks_run_in_order "sqltools" "production" sample_extension "runQuery"
    (λ _, Normal (VThenable (Fulfils (VData "rows")))) [VData "select 1"] ∧
  (∃ rest,
     calls (dispatch "sqltools" "production" failing_extension "runQuery"
              (λ _, Normal (VData "ok")) []).2 =
       map (λ h : Hook ICommandEvent, CallBeforeHook (hook_id h) (will_run_event "runQuery" []))
           ([] ++ [failing 1]) ++ CallHandler [] :: rest) ∧
  calls (dispatch "sqltools" "production" unnamed_extension ""
           (λ _, Normal (VData "ok")) []).2 = [CallHandler []].
Proof.
  split; [|split].
  - destruct (dispatch_runs_hooks_in_order "sqltools" "production" sample_extension "runQuery"
                (λ _, Normal (VThenable (Fulfils (VData "rows")))) [VData "select 1"])
      as (_ & _ & _ & _ & Hclaim).
    apply Hclaim.
    + discriminate.
    + vm_compute. repeat constructor.
    + intros r. vm_compute. repeat constructor.
    + discriminate.
  - destruct (dispatch_runs_hooks_in_order "sqltools" "production" failing_extension "runQuery"
                (λ _, Normal (VData "ok")) [])
      as (_ & _ & _ & Hthrow & _).
    apply (Hthrow [] (failing 1) [quiet 2]).
    + discriminate.
    + vm_compute. reflexivity.
    + constructor.
    + discriminate.
  - destruct (dispatch_runs_hooks_in_order "sqltools" "production" unnamed_extension ""
                (λ _, Normal (VData "ok")) [])
      as (_ & _ & Hunnamed & _).
    apply Hunnamed. reflexivity.
Defined.

(** C1 as worded fails: the hooks registered for the command with the empty
    name are never called, and a before-hook that throws keeps the hooks
    registered after it from being called. *)
Lemma hooks_skipped_for_unnamed_command :
  ¬ hooks_run_in_order "sqltools" "production" unnamed_extension ""
      (λ _, Normal (VData "ok")) [] ∧
  ¬ hooks_run_in_order "sqltools" "production" failing_extension "runQuery"
      (λ _, Normal (VData "ok")) [].
Proof. split; intros H; vm_compute in H; discriminate H. Qed.

Lemma failed_dispatch_propagates_witness :
  (dispatch "sqltools" "production" sample_extension "runQuery"
     (λ _, Normal (VThenable (Rejects (Raised "connection lost")))) []).1 =
    Throw (Raised "connection lost").
Proof.
  apply (failed_dispatch_propagates "sqltools" "production" sample_extension "runQuery"
           (λ _, Normal (VThenable (Rejects (Raised "connection lost")))) []
           (Raised "connection lost")).
  right. exists (Rejects (Raised "connection lost")). split; reflexivity.
Defined.

Lemma dispatch_returns_handler_result_witness :
  succeeds_with (λ _, Normal (VThenable (Fulfils (VData "rows")))) [VData "select 1"]
    (VData "rows").
Proof.
  apply (dispatch_returns_handler_result "sqltools" "production" sample_extension "runQuery"
           (λ _, Normal (VThenable (Fulfils (VData "rows")))) [VData "select 1"]).
  vm_compute. reflexivity.
Defined.

Lemma load_pass_isolates_failure_witness :
  ∃ w, loadPlugins {| this := sample_queue; trace := [] |} = (Normal tt, w) ∧
       registered (trace w) = ["formatter"; "broken"; "driver"] ∧
       reported (trace w) = [("Error loading plugin broken", Raised "cannot start")] ∧
       extPlugins (this w) = record_all [formatter; driver] ∅.
Proof.
  destruct (load_pass_isolates_failure sample_queue [formatter] [driver] broken
              (Raised "cannot start")) as (w & Hrun & Hreg & Hrep & _ & Hext & _).
  - reflexivity.
  - vm_compute. reflexivity.
  - repeat constructor.
  - exists w. repeat split; assumption.
Defined.

(** C4 as worded fails: of two plugins declaring the same id under the same
    tag, the one whose [register] throws has its id filed all the same, by
    the one that loads. *)
Lemma failed_id_is_filed_by_another_plugin :
  call_outcomes [broken_driver; driver] empty_registry = [Some (Raised "cannot start"); None] ∧
  ¬ failed_id_not_recorded (waiting [broken_driver; driver]) broken_driver.
Proof.
  split; [reflexivity|]. intros Hclaim.
  apply (Hclaim "acme.driver"); [reflexivity|]. vm_compute. left.
Qed.

(** Under a tag that names an inherited member, a plugin whose [register]
    returns is reported as failed and its id is not filed. *)
Example oddly_tagged_plugin_is_reported :
  reported (trace (loadPlugins (waiting [oddly_tagged])).2) =
    [("Error loading plugin odd", TypeError "includes is not a function")] ∧
  recorded (extPlugins (this (loadPlugins (waiting [oddly_tagged])).2)) "constructor" = [].
Proof. split; vm_compute; reflexivity. Qed.

Example sample_load_pass :
  recorded (extPlugins (this (loadPlugins {| this := sample_queue; trace := [] |}).2)) "driver"
    = ["acme.driver"] ∧
  recorded (extPlugins (this (loadPlugins {| this := sample_queue; trace := [] |}).2)) "general"
    = ["acme.formatter"].
Proof. split; vm_compute; reflexivity. Qed.

(** *** Load passes in general *)

Lemma registerPlugin_unloaded (plugins : list IExtensionPlugin) (w : World) :
  loaded (this w) = false →
  registerPlugin plugins w =
    (Normal tt,
     {| this := set_pluginsQueue (pluginsQueue (this w) ++ plugins) (this w);
        trace := trace w |}).
Proof.
  intros Hw. unfold registerPlugin, bind, update, modify, get. simpl. by rewrite Hw.
Qed.

(** X1.  A load pass always completes, whatever the plugins do: it returns
    normally, [register] has been called on every queued plugin in queue
    order, the queue is left empty, [loaded] is set, and the pass ends by
    scheduling the write of the bookkeeping. *)
Theorem load_pass_always_completes (w : World) :
  ∃ w', loadPlugins w = (Normal tt, w') ∧
        pluginsQueue (this w') = [] ∧
        loaded (this w') = true ∧
        registered (trace w') = registered (trace w) ++ map name (pluginsQueue (this w)) ∧
        last (trace w') = Some UpdateExtPluginsInfo.
Proof.
  rewrite loadPlugins_unfold. eexists. split; [reflexivity|]. cbn [this trace pluginsQueue loaded].
  repeat split.
  - rewrite !registered_app, registered_pass_trace.
    change (registered [UpdateExtPluginsInfo]) with (@nil string).
    by rewrite app_nil_r.
  - by rewrite !app_assoc, last_snoc.
Qed.

(** X2.  A load pass never files an id twice under one tag: if no tag holds
    a duplicate before the pass, none does after it, even when several
    plugins of the queue declare the same id. *)
Theorem load_pass_keeps_ids_unique (w : World) :
  (∀ k, NoDup (recorded (extPlugins (this w)) k)) →
  ∀ k, NoDup (recorded (extPlugins (this (loadPlugins w).2)) k).
Proof.
  intros Hw k. rewrite loadPlugins_unfold. cbn [snd this extPlugins].
  by apply record_all_NoDup.
Qed.

(** X3.  A load pass never removes or reorders what is filed: under every
    tag, the ids filed before the pass are the first ones filed after it. *)
Theorem load_pass_keeps_recorded_ids (w : World) (k : string) :
  recorded (extPlugins (this w)) k `prefix_of`
  recorded (extPlugins (this (loadPlugins w).2)) k.
Proof.
  rewrite loadPlugins_unfold. cbn [snd this extPlugins]. apply record_all_prefix.
Qed.

(** X4.  A plugin is loaded once: a second pass right after a pass finds the
    queue empty, calls no [register], reports nothing and leaves the
    bookkeeping and the registry as they are; it only schedules the write
    again. *)
Theorem second_load_pass_is_idle (w : World) :
  loadPlugins (loadPlugins w).2 =
    (Normal tt,
     {| this := this (loadPlugins w).2;
        trace := trace (loadPlugins w).2 ++ [UpdateExtPluginsInfo] |}).
Proof. by rewrite (loadPlugins_unfold w), loadPlugins_unfold. Qed.

(** X5.  Before the first load pass, [registerPlugin] only appends to the
    queue: no [register] is called, nothing is filed, nothing is traced. *)
Theorem registerPlugin_before_load_only_queues (plugins : list IExtensionPlugin) (w : World) :
  loaded (this w) = false →
  registerPlugin plugins w =
    (Normal tt,
     {| this := set_pluginsQueue (pluginsQueue (this w) ++ plugins) (this w);
        trace := trace w |}).
Proof. apply registerPlugin_unloaded. Qed.

(** X6.  Once a pass has run, [registerPlugin] loads what it is given at
    once: [register] is called on the new plugins, in the order given, and
    the queue is empty again. *)
Theorem registerPlugin_after_load_loads_at_once (plugins : list IExtensionPlugin) (w : World) :
  loaded (this w) = true → pluginsQueue (this w) = [] →
  ∃ w', registerPlugin plugins w = (Normal tt, w') ∧
        registered (trace w') = registered (trace w) ++ map name plugins ∧
        pluginsQueue (this w') = [].
Proof.
  intros Hw Hq. unfold registerPlugin.
  unfold bind at 1, update at 1, modify at 1.
  unfold bind at 1, get at 1. cbn [this set_pluginsQueue loaded]. rewrite Hw, Hq.
  rewrite loadPlugins_unfold. eexists. split; [reflexivity|].
  cbn [this trace pluginsQueue registry app]. split; [|done].
  rewrite !registered_app, registered_pass_trace.
  change (registered [UpdateExtPluginsInfo]) with (@nil string).
  by rewrite app_nil_r.
Qed.

(** X7.  Plugins registered in several calls before the first pass are loaded
    by that pass in the order they were registered. *)
Theorem queued_plugins_load_in_order (ps1 ps2 : list IExtensionPlugin) (w : World) :
  loaded (this w) = false →
  ∃ w', (registerPlugin ps1 >> registerPlugin ps2 >> loadPlugins) w = (Normal tt, w') ∧
        registered (trace w') =
          registered (trace w) ++ map name (pluginsQueue (this w) ++ ps1 ++ ps2).
Proof.
  intros Hw.
  unfold bind at 1. rewrite (registerPlugin_unloaded ps1 w Hw).
  unfold bind at 1. rewrite registerPlugin_unloaded by done.
  rewrite loadPlugins_unfold. eexists. split; [reflexivity|].
  cbn [this trace pluginsQueue set_pluginsQueue registry].
  rewrite !registered_app, registered_pass_trace.
  change (registered [UpdateExtPluginsInfo]) with (@nil string).
  by rewrite app_nil_r, <- app_assoc.
Qed.

(** X8.  Filing a plugin twice is the same as filing it once. *)
Theorem record_extension_idempotent (p : IExtensionPlugin) (m : gmap string (list string)) :
  record_extension p (record_extension p m).1 = record_extension p m.
Proof.
  unfold record_extension.
  destruct (extensionId p) as [i|]; [|done].
  destruct (truthy i); [|done].
  set (key := or_else (type p) "general").
  set (ids := default [] (m !! key)).
  assert (Hin : i ∈ (if bool_decide (i ∈ ids) then ids else ids ++ [i])).
  { case_bool_decide; [done|]. apply elem_of_app. right. by left. }
  assert (Hagain :
    match js_get (<[key := if bool_decide (i ∈ ids) then ids else ids ++ [i]]> m) key with
    | Inherited _ => (<[key := if bool_decide (i ∈ ids) then ids else ids ++ [i]]> m,
                      Some (TypeError "includes is not a function"))
    | _ =>
        (<[key := if bool_decide
                       (i ∈ default []
                          (<[key := if bool_decide (i ∈ ids) then ids else ids ++ [i]]> m !! key))
                  then default []
                         (<[key := if bool_decide (i ∈ ids) then ids else ids ++ [i]]> m !! key)
                  else default []
                         (<[key := if bool_decide (i ∈ ids) then ids else ids ++ [i]]> m !! key)
                       ++ [i]]>
           (<[key := if bool_decide (i ∈ ids) then ids else ids ++ [i]]> m), None)
    end = (<[key := if bool_decide (i ∈ ids) then ids else ids ++ [i]]> m, None)).
  { unfold js_get. rewrite lookup_insert_eq. simpl.
    rewrite (bool_decide_eq_true_2 _ Hin). by rewrite insert_insert_eq. }
  destruct (js_get m key) eqn:Hget; cbn [fst];
    [exact Hagain | by rewrite Hget | exact Hagain].
Qed.

(** *** Dispatches in general *)

Lemma filter_none {A} (f : A → bool) (l : list A) :
  Forall (λ o, f o = false) l → List.filter f l = [].
Proof. induction 1 as [|o l Ho _ IH]; simpl; [done|]. by rewrite Ho. Qed.

Lemma handler_calls_before_trace (x : SQLToolsExtension) (command : string) (a : list Value) :
  List.filter is_handler_call (before_trace x command a) = [].
Proof. apply filter_none. by apply listener_trace_Forall. Qed.

Lemma handler_calls_after_trace (x : SQLToolsExtension) (command : string) (a : list Value)
    (r : Value) :
  List.filter is_handler_call (after_trace x command a r) = [].
Proof. apply filter_none. by apply listener_trace_Forall. Qed.

(** X10.  Every dispatch calls the handler exactly once, with the arguments
    of the invocation: no hook, whether it returns or throws, keeps the
    handler from running or makes it run again. *)
Theorem handler_is_called_exactly_once (ns env : string) (x : SQLToolsExtension)
    (command : string) (handler : Handler) (a : list Value) :
  List.filter is_handler_call (dispatch ns env x command handler a).2 = [CallHandler a].
Proof.
  rewrite dispatch_unfold. cbv zeta.
  assert (Hpre : List.filter is_handler_call
                   (log_line ns env command a :: FireWillRun (will_run_event command a) ::
                    before_trace x command a ++ [CallHandler a]) = [CallHandler a]).
  { change (List.filter is_handler_call (log_line ?n ?e ?c ?b :: FireWillRun ?evt :: ?t))
      with (List.filter is_handler_call t).
    by rewrite List.filter_app, handler_calls_before_trace. }
  destruct (handler a) as [v|e]; [|done].
  destruct v as [| |d|s|d]; cbn [snd settle]; try done.
  - rewrite List.filter_app, Hpre.
    change (List.filter is_handler_call (FireDidRun ?e :: ?t))
      with (List.filter is_handler_call t).
    by rewrite handler_calls_after_trace.
  - rewrite List.filter_app, Hpre.
    change (List.filter is_handler_call (FireDidRun ?e :: ?t))
      with (List.filter is_handler_call t).
    by rewrite handler_calls_after_trace.
  - destruct (match s with Fulfils v' => settle v' | Rejects e => Throw e end) as [r|e];
      cbn [snd]; rewrite List.filter_app, Hpre; [|done].
    change (List.filter is_handler_call (Suspend :: FireDidRun ?e :: ?t))
      with (List.filter is_handler_call t).
    by rewrite handler_calls_after_trace.
  - rewrite List.filter_app, Hpre.
    change (List.filter is_handler_call (Suspend :: FireDidRun ?e :: ?t))
      with (List.filter is_handler_call t).
    by rewrite handler_calls_after_trace.
Qed.

Lemma until_throw_app {E} (evt : E) (pre rest : list (Hook E)) :
  Forall (λ h, hook_run h evt = None) pre →
  until_throw evt (pre ++ rest) = pre ++ until_throw evt rest.
Proof. induction 1 as [|h pre Hh _ IH]; simpl; [done|]. by rewrite Hh, IH. Qed.

Lemma js_get_addHook_other {E} (table : gmap string (list (Hook E))) (command command' : string)
    (handler : Hook E) :
  command' ≠ command →
  js_get (addHook table command handler).1 command' = js_get table command'.
Proof.
  intros Hne. unfold addHook.
  destruct (js_get table command); cbn [fst]; try done;
    unfold js_get; by rewrite lookup_insert_ne.
Qed.

Lemma dispatch_same_hooks (ns env : string) (f : Registry → Registry * option Thrown)
    (x : SQLToolsExtension) (command : string) (handler : Handler) (a : list Value) :
  js_get (willRunCommandHooks (f (registry x)).1) command =
    js_get (willRunCommandHooks (registry x)) command →
  js_get (didRunCommandSuccessfullyHooks (f (registry x)).1) command =
    js_get (didRunCommandSuccessfullyHooks (registry x)) command →
  dispatch ns env (on_registry f x) command handler a = dispatch ns env x command handler a.
Proof.
  intros Hwill Hdid. rewrite !dispatch_unfold. cbv zeta.
  unfold before_trace, after_trace, on_registry. cbn [registry set_registry].
  by rewrite Hwill, Hdid.
Qed.

(** X12.  A before-hook registered for a command is called by the next
    dispatch of that command, right before the handler and after the hooks
    registered earlier (these returning normally), provided the command's
    name is not empty and does not read as a member inherited from
    [Object.prototype]; for a command that has no list yet and whose name
    is such a member, the registration raises and registers nothing. *)
Theorem registered_hook_is_called_last (ns env : string) (x : SQLToolsExtension)
    (command : string) (hook : Hook ICommandEvent) (handler : Handler) (a : list Value) :
  (command ≠ "" →
   is_Some (willRunCommandHooks (registry x) !! command) ∨ object_prototype command = None →
   Forall (λ h, hook_run h (will_run_event command a) = None)
          (hooks_of (willRunCommandHooks (registry x)) command) →
   (addBeforeCommandHook command hook (registry x)).2 = None ∧
   ∃ rest,
     calls (dispatch ns env (on_registry (addBeforeCommandHook command hook) x)
              command handler a).2 =
       map (λ h, CallBeforeHook (hook_id h) (will_run_event command a))
           (hooks_of (willRunCommandHooks (registry x)) command ++ [hook]) ++
       CallHandler a :: rest) ∧
  (willRunCommandHooks (registry x) !! command = None →
   is_Some (object_prototype command) →
   addBeforeCommandHook command hook (registry x) =
     (registry x, Some (TypeError "push is not a function"))).
Proof.
  split.
  - intros Hcmd Hplain Hquiet.
    assert (Hadd : addHook (willRunCommandHooks (registry x)) command hook =
              (<[command := hooks_of (willRunCommandHooks (registry x)) command ++ [hook]]>
                 (willRunCommandHooks (registry x)), None)).
    { unfold addHook, js_get, hooks_of.
      destruct (willRunCommandHooks (registry x) !! command) as [hooks|]; [done|].
      destruct Hplain as [[? [=]]| ->]. done. }
    split; [unfold addBeforeCommandHook; by rewrite Hadd|].
    assert (Hcalled :
      hooks_called (willRunCommandHooks
          (registry (on_registry (addBeforeCommandHook command hook) x))) command
        (will_run_event command a) =
      hooks_of (willRunCommandHooks (registry x)) command ++ [hook]).
    { unfold on_registry, addBeforeCommandHook. cbn [registry set_registry fst
        willRunCommandHooks]. rewrite Hadd. cbn [fst].
      unfold hooks_called. rewrite (truthy_nonempty _ Hcmd).
      unfold hooks_of at 1. rewrite lookup_insert_eq. cbn [default from_option id].
      rewrite (until_throw_app _ _ _ Hquiet). simpl. by destruct (hook_run hook _). }
    rewrite calls_of_dispatch. unfold dispatch_calls. rewrite Hcalled.
    destruct (handler a) as [[| | | |]|]; by eexists.
  - intros Hnone [len Hlen]. unfold addBeforeCommandHook, addHook, js_get.
    rewrite Hnone, Hlen. cbn [fst snd]. by destruct (registry x).
Qed.

(** X13.  Hooks are keyed by the exact command name: registering a before-
    or an after-hook for one command changes nothing, trace included, in a
    dispatch of another command. *)
Theorem other_commands_are_unaffected (ns env : string) (x : SQLToolsExtension)
    (command command' : string) (before : Hook ICommandEvent)
    (after : Hook ICommandSuccessEvent) (handler : Handler) (a : list Value) :
  command' ≠ command →
  dispatch ns env (on_registry (addBeforeCommandHook command before) x) command' handler a =
    dispatch ns env x command' handler a ∧
  dispatch ns env (on_registry (addAfterCommandSuccessHook command after) x) command' handler a =
    dispatch ns env x command' handler a.
Proof.
  intros Hne. split; apply dispatch_same_hooks; cbn [addBeforeCommandHook
    addAfterCommandSuccessHook willRunCommandHooks didRunCommandSuccessfullyHooks fst];
    try done; by apply js_get_addHook_other.
Qed.

(** X14.  The listener of the "will run" event does nothing at all, not even
    log, when the command's name is empty, when the command's list of hooks
    is empty, or when the command has no list and its name either is not a
    member inherited from [Object.prototype] or is one whose [length] is 0
    (as [toString]).  When the command has no list and its name is another
    inherited member (as [constructor]), the listener logs and raises, for
    want of a [forEach]. *)
Theorem listener_without_hooks_is_silent (evt : ICommandEvent) (w : World) :
  (command evt = "" ∨
   willRunCommandHooks (registry (this w)) !! command evt = Some [] ∨
   (willRunCommandHooks (registry (this w)) !! command evt = None ∧
    (object_prototype (command evt) = None ∨
     object_prototype (command evt) = Some (Some 0))) →
   onWillRunCommandHandler evt w = (Normal tt, w)) ∧
  (∀ len,
     command evt ≠ "" →
     willRunCommandHooks (registry (this w)) !! command evt = None →
     object_prototype (command evt) = Some len → len ≠ Some 0 →
     onWillRunCommandHandler evt w =
       (Throw (TypeError "forEach is not a function"),
        {| this := this w; trace := trace w ++ [LogDebug len "beforeCommandHooks"] |})).
Proof.
  unfold onWillRunCommandHandler, js_get. split.
  - intros Hsilent.
    destruct (truthy (command evt)) eqn:Hcmd; [|done]. cbn [negb].
    destruct Hsilent as [Hempty|[Hnone|[Hnone Hproto]]].
    + by rewrite Hempty in Hcmd.
    + unfold bind, get. by rewrite Hnone.
    + unfold bind, get. rewrite Hnone. by destruct Hproto as [-> | ->].
  - intros len Hcmd Hnone Hlen Hnonzero.
    rewrite (truthy_nonempty _ Hcmd). cbn [negb].
    unfold bind at 1, get at 1. rewrite Hnone, Hlen. cbn [run_hooks].
    by rewrite bool_decide_eq_false_2.
Qed.

(** *** More instances *)

Lemma load_pass_keeps_ids_unique_witness :
  NoDup (recorded (extPlugins (this (loadPlugins (waiting [driver; driver_again; driver])).2))
                  "driver").
Proof.
  apply (load_pass_keeps_ids_unique (waiting [driver; driver_again; driver])).
  intros k. vm_compute. constructor.
Defined.

Example same_id_is_filed_once :
  recorded (extPlugins (this (loadPlugins (waiting [driver; driver_again; driver])).2)) "driver"
    = ["acme.driver"].
Proof. vm_compute. reflexivity. Qed.

Lemma registerPlugin_before_load_only_queues_witness :
  registerPlugin [driver] (waiting [formatter]) =
    (Normal tt,
     {| this := set_pluginsQueue ([formatter] ++ [driver]) (this (waiting [formatter]));
        trace := [] |}).
Proof.
  apply (registerPlugin_before_load_only_queues [driver] (waiting [formatter])).
  reflexivity.
Defined.

Lemma registerPlugin_after_load_loads_at_once_witness :
  ∃ w', registerPlugin [formatter; broken; driver] running = (Normal tt, w') ∧
        registered (trace w') = ["formatter"; "broken"; "driver"] ∧
        pluginsQueue (this w') = [].
Proof.
  apply (registerPlugin_after_load_loads_at_once [formatter; broken; driver] running);
    reflexivity.
Defined.

Lemma queued_plugins_load_in_order_witness :
  ∃ w', (registerPlugin [broken] >> registerPlugin [driver] >> loadPlugins)
          (waiting [formatter]) = (Normal tt, w') ∧
        registered (trace w') = ["formatter"; "broken"; "driver"].
Proof.
  apply (queued_plugins_load_in_order [broken] [driver] (waiting [formatter])).
  reflexivity.
Defined.

Lemma success_event_fired_witness :
  FireDidRun (did_run_event "runQuery" [] (VData "rows")) ∈
    (dispatch "sqltools" "production" sample_extension "runQuery"
       (λ _, Normal (VData "rows")) []).2.
Proof.
  apply (success_event_fired "sqltools" "production" sample_extension "runQuery"
           (λ _, Normal (VData "rows")) [] (VData "rows") (VData "rows"));
    [reflexivity | discriminate | reflexivity].
Defined.

Lemma other_commands_are_unaffected_witness :
  dispatch "sqltools" "production"
    (on_registry (addBeforeCommandHook "runQuery" (failing 9)) sample_extension)
    "format" (λ _, Normal (VData "ok")) [] =
  dispatch "sqltools" "production" sample_extension "format" (λ _, Normal (VData "ok")) [].
Proof.
  apply (other_commands_are_unaffected "sqltools" "production" sample_extension
           "runQuery" "format" (failing 9) (quiet 9) (λ _, Normal (VData "ok")) []).
  discriminate.
Defined.

Lemma listener_without_hooks_is_silent_witness :
  onWillRunCommandHandler (will_run_event "format" []) {| this := sample_extension; trace := [] |}
    = (Normal tt, {| this := sample_extension; trace := [] |}) ∧
  onWillRunCommandHandler (will_run_event "toString" [])
    {| this := sample_extension; trace := [] |}
    = (Normal tt, {| this := sample_extension; trace := [] |}) ∧
  onWillRunCommandHandler (will_run_event "constructor" [])
    {| this := sample_extension; trace := [] |}
    = (Throw (TypeError "forEach is not a function"),
       {| this := sample_extension; trace := [] ++ [LogDebug (Some 1) "beforeCommandHooks"] |}).
Proof.
  split; [|split].
  - apply (listener_without_hooks_is_silent (will_run_event "format" [])
             {| this := sample_extension; trace := [] |}).
    right. right. split; [vm_compute; reflexivity|]. left. vm_compute. reflexivity.
  - apply (listener_without_hooks_is_silent (will_run_event "toString" [])
             {| this := sample_extension; trace := [] |}).
    right. right. split; [vm_compute; reflexivity|]. right. vm_compute. reflexivity.
  - apply (listener_without_hooks_is_silent (will_run_event "constructor" [])
             {| this := sample_extension; trace := [] |}).
    + discriminate.
    + vm_compute. reflexivity.
    + vm_compute. reflexivity.
    + discriminate.
Defined.

Lemma registered_hook_is_called_last_witness :
  (∃ rest,
     calls (dispatch "sqltools" "production"
              (on_registry (addBeforeCommandHook "runQuery" (failing 9)) sample_extension)
              "runQuery" (λ _, Normal (VData "ok")) []).2 =
       map (λ h, CallBeforeHook (hook_id h) (will_run_event "runQuery" []))
           (hooks_of (willRunCommandHooks (registry sample_extension)) "runQuery" ++
            [failing 9]) ++
       CallHandler [] :: rest) ∧
  addBeforeCommandHook "hasOwnProperty" (quiet 9) (registry sample_extension) =
    (registry sample_extension, Some (TypeError "push is not a function")).
Proof.
  split.
  - apply (registered_hook_is_called_last "sqltools" "production" sample_extension
             "runQuery" (failing 9) (λ _, Normal (VData "ok")) []).
    + discriminate.
    + right. vm_compute. reflexivity.
    + vm_compute. repeat constructor.
  - apply (registered_hook_is_called_last "sqltools" "production" sample_extension
             "hasOwnProperty" (quiet 9) (λ _, Normal (VData "ok")) []).
    + vm_compute. reflexivity.
    + eexists. vm_compute. reflexivity.
Defined.

Example hook_on_inherited_name_is_never_called :
  calls (dispatch "sqltools" "production"
           (on_registry (addBeforeCommandHook "constructor" (quiet 9)) sample_extension)
           "constructor" (λ _, Normal (VData "ok")) []).2 = [CallHandler []].
Proof. vm_compute. reflexivity. Qed.

End ExtensionFacts.

(** * Properties of the results panel *)

Module ResultsFacts.
Import Js Results.NSDatabase Results.

Section Screen.

Variable EXT_NAMESPACE : string.
Variable state : QueryResultsState.


(** C5, at the failing input.  A [reset] message is answered by
    [resetRequest], which dispatches [RESULTS_RECEIVED] without a payload:
    the live state stays as it was, whatever it was, and so a panel that
    shows a result is not back in the initial state. *)
Theorem reset_message_keeps_state :
  (∀ s, run (messagesHandler reset_message) s =
          (Normal tt, {| stateRef := s; outbox := []; logs := [Received "reset" None];
                         dispatched := [RESULTS_RECEIVED None] |})) ∧
  stateRef (run (messagesHandler reset_message) (showing (select_result (JNum 50)))).2
    ≠ initialState.
Proof. split; [by intros []|]. by vm_compute. Qed.

(** The reducer itself does reset on [RESET]. *)
Lemma reducer_RESET (s : QueryResultsState) : reducer s RESET = Normal initialState.
Proof. reflexivity. Qed.

(** An action that is not empty and not one of the three known ones is
    logged twice, on reception and as a warning; nothing is dispatched or
    sent. *)
Lemma unknown_action_is_logged (msg : IWebviewMessage) (act : string) (w : Panel) :
  action msg = Some act → act ≠ "" →
  act ≠ "queryResults" → act ≠ "reset" → act ≠ "getState" →
  messagesHandler msg w =
    (Normal tt,
     {| stateRef := stateRef w; outbox := outbox w;
        logs := logs w ++ [Received act (payload msg); Warn act];
        dispatched := dispatched w |}).
Proof.
  intros Hact Hne H1 H2 H3. unfold messagesHandler. rewrite Hact.
  destruct act as [|c act]; [done|].
  rewrite !bool_decide_eq_false_2 by done.
  unfold bind, write_log, modify. simpl. by rewrite <- app_assoc.
Qed.

(** C10.  A message whose [action] is missing or empty is dropped at once:
    the handler returns, and the panel is as it was before, so that no
    action has been handed to [dispatch], nothing has been sent, nothing has
    been logged and the state is unchanged.  By contrast, an action that is
    not empty and not one of the three known ones is logged, on reception
    and as a warning. *)
Theorem falsy_action_is_ignored (msg : IWebviewMessage) (w : Panel) :
  (action msg = None ∨ action msg = Some "" →
   messagesHandler msg w = (Normal tt, w) ∧
   dispatched (messagesHandler msg w).2 = dispatched w ∧
   outbox (messagesHandler msg w).2 = outbox w ∧
   logs (messagesHandler msg w).2 = logs w ∧
   stateRef (messagesHandler msg w).2 = stateRef w) ∧
  (∀ act, action msg = Some act → act ≠ "" →
     act ≠ "queryResults" → act ≠ "reset" → act ≠ "getState" →
     dispatched (messagesHandler msg w).2 = dispatched w ∧
     outbox (messagesHandler msg w).2 = outbox w ∧
     logs (messagesHandler msg w).2 = logs w ++ [Received act (payload msg); Warn act]).
Proof.
  split.
  - assert (Hsame : action msg = None ∨ action msg = Some "" →
                    messagesHandler msg w = (Normal tt, w)).
    { intros [Hact|Hact]; unfold messagesHandler; by rewrite Hact. }
    intros Hact. by rewrite (Hsame Hact).
  - intros act Hact Hne H1 H2 H3.
    by rewrite (unknown_action_is_logged msg act w Hact Hne H1 H2 H3).
Qed.

(** *** Outbound calls *)

Lemma run_reRunQuery_absent (s : QueryResultsState) :
  index (resultTabs s) (activeTab s) = None →
  run (reRunQuery EXT_NAMESPACE state) s =
    (Normal tt, {| stateRef := s; outbox := []; logs := []; dispatched := [] |}).
Proof.
  intros Hs. unfold run, reRunQuery, bind, get, getCurrentResult. simpl. by rewrite Hs.
Qed.


Lemma run_exportResults_state (s : QueryResultsState) (c : Choice) :
  stateRef (run (exportResults EXT_NAMESPACE state c) s).2 = s.
Proof.
  unfold run, exportResults, bind, get, getCurrentResult. simpl.
  by destruct (index (resultTabs s) (activeTab s)).
Qed.

Lemma run_changePage (s : QueryResultsState) (p : Z) :
  run (changePage EXT_NAMESPACE state p) s =
    let s' := {| loading := true; error := error s; resultTabs := resultTabs s;
                 activeTab := activeTab s |} in
    match index (resultTabs state) (activeTab state) with
    | None =>
        (Throw (TypeError "Cannot read property 'queryType' of undefined"),
         {| stateRef := s'; outbox := []; logs := [];
            dispatched := [SET (Some loading_true)] |})
    | Some r =>
        (Normal tt,
         {| stateRef := s';
            outbox := [page_call EXT_NAMESPACE r p (js_or (pageSize r) (JNum 50))];
            logs := [];
            dispatched := [SET (Some loading_true)] |})
    end.
Proof.
  unfold run, changePage, set, dispatch, bind, get, modify. simpl.
  by destruct (index (resultTabs state) (activeTab state)).
Qed.

(** C6, amended.  The calls sent by re-running the query and by changing
    the page leave [loading] set in the panel state; the export call, like
    the call that focuses the console, leaves the state as it was. *)
Theorem query_calls_set_loading (s : QueryResultsState) (p : Z) (c : Choice) :
  call_sets_loading (reRunQuery EXT_NAMESPACE state) s ∧
  call_sets_loading (changePage EXT_NAMESPACE state p) s ∧
  stateRef (run (exportResults EXT_NAMESPACE state c) s).2 = s ∧
  stateRef (run (focusMessages EXT_NAMESPACE) s).2 = s.
Proof.
  repeat split.
  - unfold call_sets_loading.
    destruct (index (resultTabs s) (activeTab s)) as [r|] eqn:Hs.
    + intros _. unfold run, reRunQuery, bind, get, getCurrentResult. simpl. rewrite Hs.
      by destruct (truthy (default "" (queryType r))).
    + rewrite (run_reRunQuery_absent _ Hs). simpl.
      intros (command & a & Hin). by apply elem_of_nil in Hin.
  - unfold call_sets_loading. rewrite run_changePage. cbv zeta.
    by destruct (index (resultTabs state) (activeTab state)).
  - apply run_exportResults_state.
Qed.

(** C7, amended.  For the active result [r] of the render, [changePage(p)]
    sends exactly one message, the call with arguments
    [[queryParams, {page: p, pageSize: r.pageSize || 50, requestId}]]: the
    page size is 50 both when [r.pageSize] is [undefined] and when it is 0. *)
Theorem changePage_sends_page_call (s : QueryResultsState) (p : Z) (r : IResult) :
  index (resultTabs state) (activeTab state) = Some r →
  outbox (run (changePage EXT_NAMESPACE state p) s).2 =
    [page_call EXT_NAMESPACE r p (js_or (pageSize r) (JNum 50))] ∧
  (pageSize r = JUndefined ∨ pageSize r = JNum 0 →
   js_or (pageSize r) (JNum 50) = JNum 50).
Proof.
  intros Hr. rewrite run_changePage, Hr. split; [done|].
  by intros [-> | ->].
Qed.


End Screen.

(** *** Instances *)

(** C6 as worded fails: the export call goes out and [loading] stays
    unset. *)
Lemma export_call_leaves_loading_unset :
  ¬ call_sets_loading
      (exportResults "sqltools" (showing (select_result (JNum 50))) SaveCSVOption)
      (showing (select_result (JNum 50))).
Proof.
  intros H. assert (Hsent : call_sent
    (run (exportResults "sqltools" (showing (select_result (JNum 50))) SaveCSVOption)
         (showing (select_result (JNum 50)))).2).
  { eexists _, _. vm_compute. left. }
  apply H in Hsent. vm_compute in Hsent. discriminate Hsent.
Qed.

Lemma changePage_sends_page_call_witness :
  outbox (run (changePage "sqltools" (showing (select_result JUndefined)) 3)
              (showing (select_result JUndefined))).2 =
    [Call "sqltools.select"
       (Some [JObj [("q", JStr "a")];
              JObj [("page", JNum 3); ("pageSize", JNum 50); ("requestId", JNum 7)]])].
Proof.
  apply (changePage_sends_page_call "sqltools" (showing (select_result JUndefined))
           (showing (select_result JUndefined)) 3 (select_result JUndefined)).
  reflexivity.
Defined.

(** C7 as worded fails: with a page size of 0 the call carries 50, not 0. *)
Lemma zero_page_size_is_replaced :
  index (resultTabs (showing (select_result (JNum 0))))
        (activeTab (showing (select_result (JNum 0)))) = Some (select_result (JNum 0)) ∧
  ¬ sends_nullish_page_call "sqltools" (showing (select_result (JNum 0)))
      (showing (select_result (JNum 0))) 3 (select_result (JNum 0)).
Proof. split; [reflexivity|]. intros H. vm_compute in H. discriminate H. Qed.



Lemma falsy_action_is_ignored_witness :
  (messagesHandler {| action := Some ""; payload := None |}
     {| stateRef := showing (select_result (JNum 50)); outbox := []; logs := [];
        dispatched := [] |} =
   (Normal tt, {| stateRef := showing (select_result (JNum 50)); outbox := []; logs := [];
                  dispatched := [] |})) ∧
  logs (messagesHandler {| action := Some "refresh"; payload := None |}
          {| stateRef := showing (select_result (JNum 50)); outbox := []; logs := [];
             dispatched := [] |}).2 =
    [] ++ [Received "refresh" None; Warn "refresh"].
Proof.
  split.
  - apply (falsy_action_is_ignored {| action := Some ""; payload := None |}).
    right. reflexivity.
  - destruct (falsy_action_is_ignored {| action := Some "refresh"; payload := None |}
                {| stateRef := showing (select_result (JNum 50)); outbox := []; logs := [];
                   dispatched := [] |}) as [_ Hlogged].
    apply (Hlogged "refresh"); [reflexivity|discriminate..].
Defined.

(** *** The reducer and the inbound messages *)

(** X15.  Two [SET]s in a row are one [SET] of the two payloads spread
    together, the later keys winning; in particular a [SET] done twice is
    the [SET] done once.  They are told apart by the number of dispatches
    only. *)
Theorem set_payloads_compose (c1 c2 : Changes) (w : Panel) :
  outcome ((set c1 >> set c2) w) = outcome (set (overlay c1 c2) w) ∧
  outcome ((set c1 >> set c1) w) = outcome (set c1 w) ∧
  dispatched ((set c1 >> set c2) w).2 = dispatched w ++ [SET (Some c1); SET (Some c2)] ∧
  dispatched (set (overlay c1 c2) w).2 = dispatched w ++ [SET (Some (overlay c1 c2))].
Proof.
  unfold outcome, set, dispatch, bind, get, modify. simpl. repeat split.
  - do 2 f_equal. f_equal; by destruct c1 as [[] [] [] []], c2 as [[] [] [] []].
  - do 2 f_equal. f_equal; by destruct c1 as [[] [] [] []].
  - by rewrite <- app_assoc.
Qed.

Lemma find_first {A} (f : A → bool) (l : list A) :
  match List.find f l with
  | Some x => ∃ l1 l2, l = l1 ++ x :: l2 ∧ f x = true ∧ Forall (λ y, f y = false) l1
  | None => Forall (λ y, f y = false) l
  end.
Proof.
  induction l as [|y l IH]; simpl; [constructor|].
  destruct (f y) eqn:Hy.
  - exists [], l. by repeat split.
  - destruct (List.find f l) as [x|].
    + destruct IH as (l1 & l2 & -> & Hx & Hl1). exists (y :: l1), l2. repeat split; [done|].
      by constructor.
    + by constructor.
Qed.

Lemma run_queryResults (rs : list IResult) (s : QueryResultsState) :
  run (messagesHandler (query_results_message rs)) s =
    (Normal tt,
     {| stateRef := received rs; outbox := [];
        logs := [Received "queryResults" (Some rs)];
        dispatched := [RESULTS_RECEIVED (Some (received_changes rs))] |}).
Proof. reflexivity. Qed.

(** X16.  A [queryResults] message replaces the whole state, whatever it
    was: the payload becomes the tabs, [loading] is cleared, and the first
    tab is the active one, which exists as soon as the payload is not
    empty. *)
Theorem queryResults_shows_first_result (state s : QueryResultsState) (rs : list IResult) :
  stateRef (run (messagesHandler (query_results_message rs)) s).2 = received rs ∧
  getCurrentResult state (Some (received rs)) = head rs ∧
  renders_table (received rs) = bool_decide (rs ≠ []).
Proof.
  rewrite run_queryResults. repeat split; by destruct rs.
Qed.

(** X17.  After a [queryResults] message, [error] is the first result of the
    payload whose [error] field is truthy, and is empty exactly when no
    result has one. *)
Theorem queryResults_error_is_first_failure (s : QueryResultsState) (rs : list IResult) :
  match error (stateRef (run (messagesHandler (query_results_message rs)) s).2) with
  | Some r => ∃ rs1 rs2, rs = rs1 ++ r :: rs2 ∧ js_truthy (NSDatabase.error r) = true ∧
                         Forall (λ r', js_truthy (NSDatabase.error r') = false) rs1
  | None => Forall (λ r', js_truthy (NSDatabase.error r') = false) rs
  end.
Proof. rewrite run_queryResults. apply find_first. Qed.

(** X18.  Handling an inbound message never sends a command to the host: at
    most it posts one [receivedState] carrying the live state; and it only
    raises for a [queryResults] message that has no payload, in which case
    the state is left as it was. *)
Theorem inbound_messages_are_safe (msg : IWebviewMessage) (w : Panel) :
  (outbox (messagesHandler msg w).2 = outbox w ∨
   outbox (messagesHandler msg w).2 = outbox w ++ [ReceivedState (stateRef w)]) ∧
  ((messagesHandler msg w).1 = Normal tt ∨
   (action msg = Some "queryResults" ∧ payload msg = None ∧
    stateRef (messagesHandler msg w).2 = stateRef w)).
Proof.
  unfold messagesHandler. destruct (action msg) as [[|c act]|] eqn:Hact; try by auto.
  unfold bind, write_log, modify, resultsReceived, resetRequest, dispatch, get,
    sendMessage, throw. cbn [reducer stateRef outbox logs fst snd].
  case_bool_decide as H1.
  - destruct (payload msg); [by auto|]. split; [by left|]. right. by rewrite H1.
  - case_bool_decide as H2; [by auto|].
    case_bool_decide as H3; [|by auto].
    split; [by right|by left].
Qed.

(** X19.  Asking for the state after results were received gets exactly one
    reply, which carries those results as the panel holds them. *)
Theorem getState_replies_with_received_results (rs : list IResult) (s : QueryResultsState) :
  run (messagesHandler (query_results_message rs) >> messagesHandler get_state_message) s =
    (Normal tt,
     {| stateRef := received rs;
        outbox := [ReceivedState (received rs)];
        logs := [Received "queryResults" (Some rs); Received "getState" None];
        dispatched := [RESULTS_RECEIVED (Some (received_changes rs))] |}).
Proof. reflexivity. Qed.

(** *** The outbound calls *)

Lemma index_out_of_range {A} (xs : list A) (i : Z) :
  (i < 0 ∨ Z.of_nat (length xs) ≤ i)%Z → index xs i = None.
Proof.
  intros Hi. unfold index. destruct (i <? 0)%Z eqn:Hneg; [done|].
  apply lookup_ge_None. apply Z.ltb_ge in Hneg. lia.
Qed.

Lemma run_reRunQuery_present (ns : string) (state s : QueryResultsState) (r : IResult) :
  index (resultTabs s) (activeTab s) = Some r →
  run (reRunQuery ns state) s =
    (Normal tt,
     {| stateRef := {| loading := true; error := error s; resultTabs := resultTabs s;
                       activeTab := activeTab s |};
        outbox :=
          [if truthy (default "" (queryType r))
           then Call (ns +:+ "." +:+ template (queryType r))
                  (Some [queryParams r;
                         JObj (getCurrentQueryOptions r ++
                               [("page", page r);
                                ("pageSize", js_or (pageSize r) (JNum 50))])])
           else Call (ns +:+ ".executeQuery")
                  (Some [query r; JObj (getCurrentQueryOptions r)])];
        logs := [];
        dispatched := [SET (Some loading_true)] |}).
Proof.
  intros Hr. unfold run, reRunQuery, bind, get, getCurrentResult. simpl. rewrite Hr.
  by destruct (truthy (default "" (queryType r))).
Qed.

Lemma run_exportResults_present (ns : string) (state s : QueryResultsState) (c : Choice)
    (r : IResult) :
  index (resultTabs s) (activeTab s) = Some r →
  run (exportResults ns state c) s =
    (Normal tt,
     {| stateRef := s;
        outbox := [Call (ns +:+ ".saveResults")
                     (Some [JObj (getCurrentQueryOptions r ++ [("fileType", fileType c)])])];
        logs := [];
        dispatched := [] |}).
Proof.
  intros Hr. unfold run, exportResults, bind, get, getCurrentResult. simpl. by rewrite Hr.
Qed.

(** X20.  Changing the page reads the state of its own render only: the
    message it sends, and whether it raises, do not depend on the live
    state, so it asks for a page of the tab that render showed even when
    the panel has moved on.  Re-running and exporting do the opposite: they
    read the live state, and do the same whichever render they come from. *)
Theorem changePage_reads_render_state (ns : string) (state state' s s' : QueryResultsState)
    (p : Z) (c : Choice) :
  (run (changePage ns state p) s).1 = (run (changePage ns state p) s').1 ∧
  outbox (run (changePage ns state p) s).2 = outbox (run (changePage ns state p) s').2 ∧
  run (reRunQuery ns state) s = run (reRunQuery ns state') s ∧
  run (exportResults ns state c) s = run (exportResults ns state' c) s.
Proof.
  rewrite !run_changePage. cbv zeta.
  by destruct (index (resultTabs state) (activeTab state)).
Qed.

Example changePage_after_the_panel_moved_on :
  outbox (run (changePage "sqltools" (showing (select_result (JNum 20))) 2)
              (showing plain_result)).2 =
    [Call "sqltools.select"
       (Some [JObj [("q", JStr "a")];
              JObj [("page", JNum 2); ("pageSize", JNum 20); ("requestId", JNum 7)]])].
Proof. reflexivity. Qed.

(** X21.  With an active result, re-running and exporting each send exactly
    one call, whose last argument starts with the query options
    (requestId, resultId, baseQuery, connId) read from that result at the
    time of the call. *)
Theorem calls_replay_query_options (ns : string) (state s : QueryResultsState) (c : Choice)
    (r : IResult) :
  index (resultTabs s) (activeTab s) = Some r →
  (∃ command args extra,
     outbox (run (reRunQuery ns state) s).2 =
       [Call command (Some (args ++ [JObj (getCurrentQueryOptions r ++ extra)]))]) ∧
  (∃ extra,
     outbox (run (exportResults ns state c) s).2 =
       [Call (ns +:+ ".saveResults") (Some [JObj (getCurrentQueryOptions r ++ extra)])]).
Proof.
  intros Hr. rewrite (run_reRunQuery_present _ _ _ _ Hr), (run_exportResults_present _ _ _ _ _ Hr).
  cbn [snd outbox]. split.
  - destruct (truthy (default "" (queryType r))).
    + by eexists _, [_], _.
    + eexists _, [_], []. by rewrite app_nil_r.
  - by eexists.
Qed.

(** X22.  No handler of the screen changes the tabs, the active tab or the
    error: re-running, changing the page, exporting and focusing the console
    touch [loading] at most, whether they return or raise. *)
Theorem handlers_keep_results (ns : string) (state s : QueryResultsState) (p : Z) (c : Choice) :
  same_results s (stateRef (run (reRunQuery ns state) s).2) ∧
  same_results s (stateRef (run (changePage ns state p) s).2) ∧
  same_results s (stateRef (run (exportResults ns state c) s).2) ∧
  same_results s (stateRef (run (focusMessages ns) s).2).
Proof.
  repeat split; try reflexivity.
  all: try (rewrite run_changePage; cbv zeta;
            by destruct (index (resultTabs state) (activeTab state))).
  all: try (rewrite run_exportResults_state; reflexivity).
  all: destruct (index (resultTabs s) (activeTab s)) as [r|] eqn:Hr;
    [by rewrite (run_reRunQuery_present _ _ _ _ Hr)
    |by rewrite (run_reRunQuery_absent _ _ _ Hr)].
Qed.

(** X23.  [toggleTab] does not check bounds: an index outside the tabs is
    stored as given, and from then on re-running and exporting find no
    active result and return without sending anything. *)
Theorem toggle_out_of_range_disables_calls (ns : string) (state s : QueryResultsState)
    (i : Z) (c : Choice) :
  (i < 0 ∨ Z.of_nat (length (resultTabs s)) ≤ i)%Z →
  run (toggleTab i >> reRunQuery ns state) s =
    (Normal tt,
     {| stateRef := {| loading := loading s; error := error s; resultTabs := resultTabs s;
                       activeTab := i |};
        outbox := []; logs := []; dispatched := [TOGGLE_TAB i] |}) ∧
  run (toggleTab i >> exportResults ns state c) s =
    (Normal tt,
     {| stateRef := {| loading := loading s; error := error s; resultTabs := resultTabs s;
                       activeTab := i |};
        outbox := []; logs := []; dispatched := [TOGGLE_TAB i] |}).
Proof.
  intros Hi. apply index_out_of_range in Hi.
  unfold run, toggleTab, dispatch, reRunQuery, exportResults, bind, get, modify,
    getCurrentResult.
  simpl. by rewrite Hi.
Qed.

(** X24.  The page size the table shows is the page size [changePage] asks
    for, and it is never a falsy value: a missing or zero page size is shown
    and requested as 50. *)
Theorem changePage_requests_displayed_page_size (ns : string) (state s : QueryResultsState)
    (p : Z) (r : IResult) :
  index (resultTabs state) (activeTab state) = Some r →
  outbox (run (changePage ns state p) s).2 = [page_call ns r p (table_pageSize state)] ∧
  js_truthy (table_pageSize state) = true.
Proof.
  intros Hr. rewrite run_changePage. unfold table_pageSize. rewrite Hr. split; [done|].
  unfold js_or. by destruct (js_truthy (pageSize r)) eqn:Hsize.
Qed.

(** *** More instances *)

Lemma calls_replay_query_options_witness :
  ∃ command args extra,
    outbox (run (reRunQuery "sqltools" initialState) (showing plain_result)).2 =
      [Call command (Some (args ++ [JObj (getCurrentQueryOptions plain_result ++ extra)]))].
Proof.
  apply (calls_replay_query_options "sqltools" initialState (showing plain_result)
           SaveCSVOption plain_result).
  reflexivity.
Defined.

Example rerun_of_plain_query :
  outbox (run (reRunQuery "sqltools" initialState) (showing plain_result)).2 =
    [Call "sqltools.executeQuery"
       (Some [JStr "delete from t";
              JObj [("requestId", JNum 8); ("resultId", JStr "r2");
                    ("baseQuery", JStr "delete from t"); ("connId", JStr "c1")]])].
Proof. reflexivity. Qed.

Lemma toggle_out_of_range_disables_calls_witness :
  run (toggleTab 1 >> reRunQuery "sqltools" initialState) (showing plain_result) =
    (Normal tt,
     {| stateRef := {| loading := false; error := None; resultTabs := [plain_result];
                       activeTab := 1 |};
        outbox := []; logs := []; dispatched := [TOGGLE_TAB 1] |}).
Proof.
  apply (toggle_out_of_range_disables_calls "sqltools" initialState (showing plain_result) 1
           SaveCSVOption).
  right. simpl. lia.
Defined.

Lemma changePage_requests_displayed_page_size_witness :
  js_truthy (table_pageSize (showing (select_result (JNum 0)))) = true.
Proof.
  apply (changePage_requests_displayed_page_size "sqltools" (showing (select_result (JNum 0)))
           initialState 2 (select_result (JNum 0))).
  reflexivity.
Defined.

Example first_failure_is_reported :
  error (stateRef (run (messagesHandler
           (query_results_message [plain_result; failed_result; select_result JNull]))
           initialState).2) = Some failed_result.
Proof. reflexivity. Qed.

End ResultsFacts.
